(** * bpdaily: collating blood pressure readings into one CSV row per day

    A shallow embedding of the Go package [dlycsv] (file [dlycsv/daily.go])
    and the properties of its conversion pipeline:

      convertBPDateTimes -> sort.Slice -> combineRecordsForSameDay
        -> buildHeaderRecord -> discardMarkedRecords

    Conventions of the embedding.
    - A CSV record ([[]string]) is a [list string]; the record set
      ([[][]string]) is a [list (list string)].  The records handed out by
      [csv.Reader.ReadAll] own their backing arrays (each one is made with
      capacity equal to its length), so [append] on one row never writes
      into another row and a row is faithfully a value of its own.  The one
      alias the code relies on, the loop variable [record] sharing its
      backing array with the row at [index] of the record set, is written
      out where it is used.
    - Go strings are byte strings; [string] is a list of [ascii] bytes and
      [<] on strings is [String.ltb] (bytewise lexicographic order).
    - An index or slice expression that is out of range panics; functions
      that contain such expressions return a [result].
    - [sort.Slice] is not stable and its algorithm is unspecified: it is
      embedded as a relation that accepts every sorted permutation. *)

From Stdlib Require Import ZArith List String Ascii Bool Lia.
From Stdlib Require Import DecimalString Sorting.Sorted.
From stdpp Require Import base option list strings sorting.

Local Open Scope string_scope.
Local Open Scope list_scope.

(** ** Outcomes of code that can panic *)

Inductive result (A : Type) : Type :=
| Ok (a : A)
| Panic.
Arguments Ok {A} a.
Arguments Panic {A}.

Definition bindR {A B : Type} (r : result A) (k : A -> result B) : result B :=
  match r with
  | Ok a => k a
  | Panic => Panic
  end.

(** ** Go strings *)

Module GoString.

(** [a < b] on Go strings. *)
Definition lt (a b : string) : Prop := String.ltb a b = true.

(** [!(b < a)], the order a sorted slice has between earlier and later
    elements. *)
Definition le (a b : string) : Prop := String.ltb b a = false.

(** [s[lo:hi]]: panics unless [lo <= hi <= len(s)]. *)
Definition slice (s : string) (lo hi : nat) : result string :=
  if (lo <=? hi)%nat && (hi <=? String.length s)%nat
  then Ok (String.substring lo (hi - lo) s)
  else Panic.

End GoString.

(** ** The two calls into Go's [time] package

  [time.Parse("Jan 02 2006 15:04:05", value)] followed by
  [Time.Format("2006-01-02 15:04:05")].  The package is not part of the
  repository; it is modelled here for these two fixed layouts, following
  the parsing steps of the standard library ([lookup], [getnum], [atoi],
  [skip], the day-of-month validation and [appendInt]).  A parsed instant
  is kept as its civil fields in UTC, which is what [Format] prints. *)

Module GoTime.

Local Open Scope Z_scope.

Record Time : Type := mkTime {
  year : Z; month : Z; day : Z;
  hour : Z; minute : Z; second : Z
}.

Definition digitOf (c : ascii) : option Z :=
  let n := Z.of_N (N_of_ascii c) in
  if (48 <=? n) && (n <=? 57) then Some (n - 48) else None.

Definition isDigitChar (c : ascii) : bool :=
  match digitOf c with Some _ => true | None => false end.

(** [getnum(s, fixed)]: one or two leading digits, exactly two when
    [fixed]. *)
Definition getnum (s : string) (fixed : bool) : option (Z * string) :=
  match s with
  | String c0 s1 =>
      match digitOf c0 with
      | None => None
      | Some d0 =>
          match s1 with
          | String c1 s2 =>
              match digitOf c1 with
              | Some d1 => Some (d0 * 10 + d1, s2)
              | None => if fixed then None else Some (d0, s1)
              end
          | EmptyString => if fixed then None else Some (d0, s1)
          end
      end
  | EmptyString => None
  end.

(** The four-digit year of [stdLongYear]. *)
Definition getyear (s : string) : option (Z * string) :=
  match s with
  | String c0 (String c1 (String c2 (String c3 rest))) =>
      match digitOf c0, digitOf c1, digitOf c2, digitOf c3 with
      | Some d0, Some d1, Some d2, Some d3 =>
          Some (d0 * 1000 + d1 * 100 + d2 * 10 + d3, rest)
      | _, _, _, _ => None
      end
  | _ => None
  end.

Fixpoint cutspace (s : string) : string :=
  match s with
  | String c s' => if Ascii.eqb c " " then cutspace s' else s
  | EmptyString => s
  end.

(** [skip(value, " ")]: a space of the layout stands for any run of
    spaces of the value. *)
Definition skipSpace (value : string) : option string :=
  match value with
  | String c _ => if Ascii.eqb c " " then Some (cutspace value) else None
  | EmptyString => Some EmptyString
  end.

(** [skip(value, c)] for a literal byte that is not a space. *)
Definition skipChar (c : ascii) (value : string) : option string :=
  match value with
  | String c' rest => if Ascii.eqb c' c then Some rest else None
  | EmptyString => None
  end.

(** [match]: equality of two bytes up to the case of letters. *)
Definition matchByte (c1 c2 : ascii) : bool :=
  if Ascii.eqb c1 c2 then true
  else
    let l1 := N.lor (N_of_ascii c1) 32 in
    let l2 := N.lor (N_of_ascii c2) 32 in
    (l1 =? l2)%N && (97 <=? l1)%N && (l1 <=? 122)%N.

Definition shortMonthNames : list string :=
  ["Jan"; "Feb"; "Mar"; "Apr"; "May"; "Jun";
   "Jul"; "Aug"; "Sep"; "Oct"; "Nov"; "Dec"].

Definition matchName (name value : string) : option string :=
  match name, value with
  | String n0 (String n1 (String n2 EmptyString)),
    String v0 (String v1 (String v2 rest)) =>
      if matchByte v0 n0 && matchByte v1 n1 && matchByte v2 n2
      then Some rest else None
  | _, _ => None
  end.

(** [lookup(shortMonthNames, value)], with the month already counted
    from 1. *)
Fixpoint lookup (tab : list string) (i : Z) (value : string)
  : option (Z * string) :=
  match tab with
  | [] => None
  | name :: tab' =>
      match matchName name value with
      | Some rest => Some (i + 1, rest)
      | None => lookup tab' (i + 1) value
      end
  end.

Fixpoint cutdigits (s : string) : string :=
  match s with
  | String c s' => if isDigitChar c then cutdigits s' else s
  | EmptyString => s
  end.

(** A fractional second in the value is accepted although the layout has
    none; it does not show in the formatted result. *)
Definition skipFraction (value : string) : string :=
  match value with
  | String c0 (String c1 rest) =>
      if (Ascii.eqb c0 "." || Ascii.eqb c0 ",") && isDigitChar c1
      then cutdigits rest else value
  | _ => value
  end.

Definition isLeap (y : Z) : bool :=
  (y mod 4 =? 0) && (negb (y mod 100 =? 0) || (y mod 400 =? 0)).

Definition daysIn (m y : Z) : Z :=
  match m with
  | 2 => if isLeap y then 29 else 28
  | 4 | 6 | 9 | 11 => 30
  | _ => 31
  end.

(** [time.Parse] with layout ["Jan 02 2006 15:04:05"]. *)
Definition Parse (value : string) : option Time :=
  '(mon, v) ← lookup shortMonthNames 0 value;
  v ← skipSpace v;
  '(d, v) ← getnum v true;
  v ← skipSpace v;
  '(y, v) ← getyear v;
  v ← skipSpace v;
  '(h, v) ← getnum v false;
  if (24 <=? h) then None else
  v ← skipChar ":" v;
  '(mi, v) ← getnum v true;
  if (60 <=? mi) then None else
  v ← skipChar ":" v;
  '(s, v) ← getnum v true;
  if (60 <=? s) then None else
  match skipFraction v with
  | EmptyString =>
      if (d <? 1) || (daysIn mon y <? d) then None
      else Some (mkTime y mon d h mi s)
  | String _ _ => None
  end.

Definition utod (u : Z) : ascii := ascii_of_N (Z.to_N (48 + u)).

Fixpoint zeros (n : nat) : string :=
  match n with O => EmptyString | S n' => String "0" (zeros n') end.

(** [appendInt(b, x, width)] for a non-negative [x]: the decimal digits,
    padded with zeros on the left up to [width]. *)
Definition appendInt (u : Z) (width : nat) : string :=
  if (width =? 2)%nat && (u <? 100) then
    String (utod (u / 10)) (String (utod (u mod 10)) EmptyString)
  else if (width =? 4)%nat && (u <? 10000) then
    String (utod (u / 1000)) (String (utod (u / 100 mod 10))
      (String (utod (u / 10 mod 10)) (String (utod (u mod 10)) EmptyString)))
  else
    let ds := NilZero.string_of_uint (N.to_uint (Z.to_N u)) in
    (zeros (width - String.length ds) ++ ds)%string.

(** [Time.Format] with layout ["2006-01-02 15:04:05"]. *)
Definition Format (t : Time) : string :=
  (appendInt (year t) 4 ++ "-" ++ appendInt (month t) 2 ++ "-" ++
   appendInt (day t) 2 ++ " " ++ appendInt (hour t) 2 ++ ":" ++
   appendInt (minute t) 2 ++ ":" ++ appendInt (second t) 2)%string.

End GoTime.

(** The shape ["YYYY-MM-DD HH:MM:SS"]: nineteen bytes, digits and the four
    kinds of separators at their places. *)
Definition isCanonicalTimestamp (s : string) : bool :=
  match list_ascii_of_string s with
  | [y0; y1; y2; y3; s1; m0; m1; s2; d0; d1; s3;
     h0; h1; s4; i0; i1; s5; e0; e1] =>
      forallb GoTime.isDigitChar
        [y0; y1; y2; y3; m0; m1; d0; d1; h0; h1; i0; i1; e0; e1]
      && Ascii.eqb s1 "-" && Ascii.eqb s2 "-" && Ascii.eqb s3 " "
      && Ascii.eqb s4 ":" && Ascii.eqb s5 ":"
  | _ => false
  end.

(** ** Package [dlycsv] *)

(** All records that are to be thrown away later are tagged with this
    value in their first field. *)
Definition discardMarker : string := "ZZZZ".

(** [record[0]]: panics on a record without fields. *)
Definition field0 (record : list string) : result string :=
  match record with
  | f :: _ => Ok f
  | [] => Panic
  end.

(** The first field where it is known to exist. *)
Definition key (record : list string) : string := hd EmptyString record.

Definition isMarked (record : list string) : bool :=
  String.eqb (key record) discardMarker.

(** *** convertBPDateTimes *)

(** The body of the loop for one record: the new value of the row. *)
Definition convertRecord (record : list string) : list string :=
  match record with
  | f0 :: rest =>
      match GoTime.Parse f0 with
      | Some datetime => GoTime.Format datetime :: rest
      | None => discardMarker :: rest
      end
  | [] => [] ++ [discardMarker]
  end.

(** [for index, record := range *records], every iteration storing into
    row [index] only. *)
Fixpoint convertLoop (fuel index : nat) (records : list (list string))
  : list (list string) :=
  match fuel with
  | O => records
  | S fuel' =>
      match records !! index with
      | Some record =>
          convertLoop fuel' (S index)
                      (<[index := convertRecord record]> records)
      | None => records
      end
  end.

Definition convertBPDateTimes (records : list (list string))
  : list (list string) :=
  convertLoop (length records) 0 records.

(** *** sort.Slice on field 0 *)

(** [!less(j, i)] for the comparator [records[i][0] < records[j][0]]. *)
Definition notAfter (a b : list string) : Prop := GoString.le (key a) (key b).

(** [sort.Slice(records, less)].  The comparator reads field 0 of the rows
    it compares, so with two rows or more a row without fields makes it
    panic; with fewer rows it is never called.  Otherwise the result is
    some permutation in which no later row is less than an earlier one. *)
Inductive sortSlice (records : list (list string))
  : result (list (list string)) -> Prop :=
| sortSlice_sorted (sorted : list (list string)) :
    (length records <= 1)%nat \/ Forall (fun r => r <> []) records ->
    records ≡ₚ sorted ->
    StronglySorted notAfter sorted ->
    sortSlice records (Ok sorted)
| sortSlice_panic :
    (2 <= length records)%nat ->
    Exists (fun r => r = []) records ->
    sortSlice records Panic.

(** *** combineRecordsForSameDay *)

Record MergeState : Type := mkMergeState {
  records : list (list string);
  accumulateIndex : nat;
  accumulateDate : string;
  readingsAccumulatedSoFar : Z;
  maxReadingsInOneDay : Z
}.

Inductive LoopStep : Type :=
| Continue (st : MergeState)
| Break (st : MergeState)
| Panicked.

(** One iteration of the loop, at [index]. *)
Definition combineBody (index : nat) (st : MergeState) : LoopStep :=
  match records st !! index with
  | None => Panicked
  | Some record =>
      match field0 record with
      | Panic => Panicked
      | Ok first =>
          if String.eqb first discardMarker then Break st
          else
            match GoString.slice first 0 10 with
            | Panic => Panicked
            | Ok recordDate =>
                if (index =? 0)%nat then
                  Continue (mkMergeState (records st) (accumulateIndex st)
                              recordDate (readingsAccumulatedSoFar st)
                              (maxReadingsInOneDay st))
                else if String.eqb recordDate (accumulateDate st) then
                  match records st !! accumulateIndex st with
                  | None => Panicked
                  | Some target =>
                      (* the accumulator takes a copy of the fields, then the
                         row at [index] is marked through the loop variable *)
                      let appended :=
                        <[accumulateIndex st := target ++ record]>
                          (records st) in
                      let marked :=
                        <[index := discardMarker :: tl record]> appended in
                      Continue (mkMergeState marked (accumulateIndex st)
                                  (accumulateDate st)
                                  (readingsAccumulatedSoFar st + 1)
                                  (maxReadingsInOneDay st))
                  end
                else
                  let newMax :=
                    if (readingsAccumulatedSoFar st >? maxReadingsInOneDay st)%Z
                    then readingsAccumulatedSoFar st
                    else maxReadingsInOneDay st in
                  Continue (mkMergeState (records st) index recordDate 1 newMax)
            end
      end
  end.

Fixpoint combineLoop (fuel index : nat) (st : MergeState) : result MergeState :=
  match fuel with
  | O => Ok st
  | S fuel' =>
      match combineBody index st with
      | Continue st' => combineLoop fuel' (S index) st'
      | Break st' => Ok st'
      | Panicked => Panic
      end
  end.

(** Returns the record set as the loop leaves it and the integer the
    function returns. *)
Definition combineRecordsForSameDay (recs : list (list string))
  : result (list (list string) * Z) :=
  bindR (combineLoop (length recs) 0 (mkMergeState recs 0 EmptyString 1 1))
        (fun st => Ok (records st, maxReadingsInOneDay st)).

(** *** buildHeaderRecord *)

(** [strconv.Itoa]. *)
Definition Itoa (i : Z) : string := NilZero.string_of_int (Z.to_int i).

Definition addHeadingSet (header : list string) (setNumber : Z) : list string :=
  let setNumberText := Itoa setNumber in
  let headingSet :=
    [ "Date Time " +:+ setNumberText;
      "Systolic " +:+ setNumberText;
      "Diastolic " +:+ setNumberText;
      "Pulse " +:+ setNumberText;
      "Note " +:+ setNumberText ] in
  header ++ headingSet.

Fixpoint headerLoop (fuel : nat) (i maxReadings : Z) (header : list string)
  : list string :=
  match fuel with
  | O => header
  | S fuel' =>
      if (i <? maxReadings)%Z
      then headerLoop fuel' (i + 1) maxReadings (addHeadingSet header (i + 1))
      else header
  end.

Definition buildHeaderRecord (maxReadings : Z) : list string :=
  headerLoop (Z.to_nat maxReadings) 0 maxReadings [].

(** *** discardMarkedRecords *)

(** The backward scan [for ; index > 0; index--]. *)
Fixpoint scanBack (fuel : nat) (recs : list (list string)) (index : Z)
  : result Z :=
  match fuel with
  | O => Ok index
  | S fuel' =>
      if (index >? 0)%Z then
        match recs !! Z.to_nat index with
        | None => Panic
        | Some record =>
            match field0 record with
            | Panic => Panic
            | Ok first =>
                if negb (String.eqb first discardMarker) then Ok index
                else scanBack fuel' recs (index - 1)
            end
        end
      else Ok index
  end.

(** [s[:hi]]: panics unless [0 <= hi <= cap(s)]; the length stands for the
    capacity here, which can only make the model panic more often. *)
Definition sliceTo {A : Type} (s : list A) (hi : Z) : result (list A) :=
  if (0 <=? hi)%Z && (hi <=? Z.of_nat (length s))%Z
  then Ok (take (Z.to_nat hi) s)
  else Panic.

(** The scan and the final re-slice [records[:index+1]], on the sorted
    record set. *)
Definition trimMarked (sorted : list (list string))
  : result (list (list string)) :=
  bindR (scanBack (length sorted) sorted (Z.of_nat (length sorted) - 1))
        (fun index => sliceTo sorted (index + 1)).

Definition discardMarkedRecords (recs : list (list string))
  (out : result (list (list string))) : Prop :=
  exists sorted,
    sortSlice recs sorted /\ out = bindR sorted trimMarked.

(** *** sortInput, from the records [ReadAll] returned to what is written *)

Record Output : Type := mkOutput {
  header : list string;
  body : list (list string)
}.

(** The steps of [sortInput] on the record set in memory.  The header is
    built from the integer the merge returned, before the discard pass. *)
Definition collate (input : list (list string)) (out : result Output) : Prop :=
  exists sorted,
    sortSlice (convertBPDateTimes input) sorted /\
    match bindR sorted combineRecordsForSameDay with
    | Panic => out = Panic
    | Ok (combined, maxReadings) =>
        exists kept,
          discardMarkedRecords combined kept /\
          out = bindR kept (fun rows =>
                  Ok (mkOutput (buildHeaderRecord maxReadings) rows))
    end.

(** *** The calls around [sortInput]: files, reader and writer

    The [encoding/csv] reader and the operating system are outside the
    package.  A reader is described by what the two calls the code makes
    on it return; the environment says what [os.Stat] finds at the output
    path and whether opening and writing succeed.  What the conversion
    does to the output file is recorded as a trace of events. *)

Record Reader : Type := mkReader {
  (** [reader.Read()]: the first record, [None] for an error (also the
      end of the file). *)
  firstRecord : option (list string);
  (** [reader.ReadAll()] after that: the other records, [None] for an
      error. *)
  otherRecords : option (list (list string))
}.

Inductive StatResult : Type :=
| StatRegularFile
| StatDirectory
| StatNotExist
| StatFailed.

Record Env : Type := mkEnv {
  outputStat : StatResult;
  (** [os.Open(inputPath)]: the reader on the input, [None] when it
      cannot be opened. *)
  inputOpens : option Reader;
  outputOpens : bool;
  headerWrites : bool;
  bodyWrites : bool
}.

(** What happens to the output file. *)
Inductive Event : Type :=
| EvOpenTruncate
| EvWriteHeader (row : list string)
| EvWriteAll (rows : list (list string))
| EvFlush
| EvClose.

(** The errors of the conversion, by the message that wraps them. *)
Inductive ConvError : Type :=
| ErrOutputExists
| ErrOpenInput
| ErrReadHeader
| ErrHeaderMismatch
| ErrOpenOutput
| ErrReadBody
| ErrWriteHeader
| ErrWriteBody.

(** A call returns an error or [nil], or the program panics; either way
    with the events so far. *)
Inductive Run : Type :=
| Returned (err : option ConvError) (trace : list Event)
| Crashed (trace : list Event).

Definition canWeWriteToFile (st : StatResult) (overwrite : bool) : bool :=
  match st with
  | StatDirectory => false
  | StatRegularFile => overwrite
  | StatNotExist => true
  | StatFailed => false
  end.

(** The test on the first record: [true] when it is refused. *)
Definition headerRefused (headerRecord : list string) : bool :=
  negb (length headerRecord =? 5)%nat
  || negb (String.eqb (nth 0 headerRecord EmptyString) "Date Time")
  || negb (String.eqb (nth 1 headerRecord EmptyString) "Systolic")
  || negb (String.eqb (nth 2 headerRecord EmptyString) "Diastolic")
  || negb (String.eqb (nth 3 headerRecord EmptyString) "Pulse")
  || negb (String.eqb (nth 4 headerRecord EmptyString) "Note").

(** [sortInput]: the events on the writer, between the opening and the
    closing of the file. *)
Definition sortInput (reader : Reader) (env : Env) (run : Run) : Prop :=
  match otherRecords reader with
  | None => run = Returned (Some ErrReadBody) []
  | Some recs =>
      exists out,
        collate recs out /\
        match out with
        | Panic => exists trace, run = Crashed trace
        | Ok o =>
            if headerWrites env then
              if bodyWrites env then
                run = Returned None
                        [EvWriteHeader (header o); EvWriteAll (body o); EvFlush]
              else
                run = Returned (Some ErrWriteBody)
                        [EvWriteHeader (header o); EvWriteAll (body o); EvFlush]
            else run = Returned (Some ErrWriteHeader) [EvWriteHeader (header o)]
        end
  end.

(** [openOutputFile]: the file is created or emptied, and closed when the
    function returns. *)
Definition openOutputFile (reader : Reader) (env : Env) (run : Run) : Prop :=
  if outputOpens env then
    exists inner,
      sortInput reader env inner /\
      match inner with
      | Returned err trace =>
          run = Returned err ([EvOpenTruncate] ++ trace ++ [EvClose])
      | Crashed trace => run = Crashed ([EvOpenTruncate] ++ trace)
      end
  else run = Returned (Some ErrOpenOutput) [].

Definition checkForHeaderRecord (reader : Reader) (env : Env) (run : Run)
  : Prop :=
  match firstRecord reader with
  | None => run = Returned (Some ErrReadHeader) []
  | Some headerRecord =>
      if headerRefused headerRecord
      then run = Returned (Some ErrHeaderMismatch) []
      else openOutputFile reader env run
  end.

Definition ConvertBloodPressureCSVToDaily (env : Env) (overwrite : bool)
  (run : Run) : Prop :=
  if canWeWriteToFile (outputStat env) overwrite then
    match inputOpens env with
    | None => run = Returned (Some ErrOpenInput) []
    | Some reader => checkForHeaderRecord reader env run
    end
  else run = Returned (Some ErrOutputExists) [].

(** The five column names of a blood pressure history. *)
Definition canonicalHeader : list string :=
  ["Date Time"; "Systolic"; "Diastolic"; "Pulse"; "Note"].

(** ** Notions the properties are stated with *)

(** The day a normalized row belongs to: [record[0][0:10]]. *)
Definition dayOf (first : string) : string := String.substring 0 10 first.

(** What every row of the working set looks like once the timestamps are
    normalized: it has a first field, and that field is the marker or a
    normalized timestamp. *)
Definition wellKeyed (record : list string) : Prop :=
  match record with
  | [] => False
  | first :: _ => first = discardMarker \/ isCanonicalTimestamp first = true
  end.

(** A row that the merge and the trim keep. *)
Definition unmarked (record : list string) : Prop := isMarked record = false.

#[export] Instance unmarked_dec (r : list string) : Decision (unmarked r).
Proof. unfold unmarked. apply _. Defined.

#[export] Instance notAfter_dec (a b : list string) : Decision (notAfter a b).
Proof. unfold notAfter, GoString.le. apply _. Defined.

(** The merge loop seen through the first fields alone.  [markRepeats date
    keys] is what the loop leaves in the first fields of the rows it still
    has to visit when it accumulates for [date]; [runMax] is the running
    maximum it ends with. *)
Fixpoint markRepeats (date : string) (keys : list string) : list string :=
  match keys with
  | [] => []
  | k :: keys' =>
      if String.eqb k discardMarker then keys
      else if String.eqb (dayOf k) date
           then discardMarker :: markRepeats date keys'
           else k :: markRepeats (dayOf k) keys'
  end.

Fixpoint runMax (date : string) (soFar mx : Z) (keys : list string) : Z :=
  match keys with
  | [] => mx
  | k :: keys' =>
      if String.eqb k discardMarker then mx
      else if String.eqb (dayOf k) date
           then runMax date (soFar + 1) mx keys'
           else runMax (dayOf k) 1 (Z.max mx soFar) keys'
  end.

Definition mergedKeys (keys : list string) : list string :=
  match keys with
  | [] => []
  | k :: keys' =>
      if String.eqb k discardMarker then keys
      else k :: markRepeats (dayOf k) keys'
  end.

Definition returnedMax (keys : list string) : Z :=
  match keys with
  | [] => 1
  | k :: keys' =>
      if String.eqb k discardMarker then 1 else runMax (dayOf k) 1 1 keys'
  end.

(** A first field as the normalizer leaves it. *)
Definition keyOk (k : string) : Prop :=
  k = discardMarker \/ isCanonicalTimestamp k = true.

(** A first field that is not the marker. *)
Definition liveKey (k : string) : Prop := k <> discardMarker.

#[export] Instance liveKey_dec (k : string) : Decision (liveKey k).
Proof. unfold liveKey. apply _. Defined.

(** The day of the first row is strictly before the day of the second. *)
Definition dayBefore (a b : list string) : Prop :=
  GoString.lt (dayOf (key a)) (dayOf (key b)).

(** One of the behaviours of [collate], with a stable merge sort in the
    place of [sort.Slice]; it can be evaluated. *)
Definition collateStable (input : list (list string)) : result Output :=
  bindR (combineRecordsForSameDay
           (merge_sort notAfter (convertBPDateTimes input)))
        (fun '(combined, maxReadings) =>
           bindR (trimMarked (merge_sort notAfter combined))
                 (fun rows =>
                    Ok (mkOutput (buildHeaderRecord maxReadings) rows))).

(** ** Readings per day, as the specification counts them *)

(** The days of the rows that are not marked, in the order of the set. *)
Definition liveDays (recs : list (list string)) : list string :=
  map (fun r => dayOf (key r)) (filter unmarked recs).

(** How many readings a day has. *)
Definition countDay (d : string) (days : list string) : Z :=
  Z.of_nat (length (filter (fun x => x = d) days)).

Definition readingsOn (recs : list (list string)) (d : string) : Z :=
  countDay d (liveDays recs).

(** The day of the last accumulation run of a sorted set. *)
Definition finalDay (recs : list (list string)) : option string :=
  last (liveDays recs).

(** The greatest of 1 and the numbers of readings of the days other than
    the final one. *)
Definition maxOfEarlierDays (recs : list (list string)) : Z :=
  foldr Z.max 1%Z
        (map (readingsOn recs)
             (filter (fun d => Some d <> finalDay recs) (liveDays recs))).

(** The running maximum of the merge loop over a list of days. *)
Fixpoint runMaxDays (date : string) (soFar mx : Z) (days : list string) : Z :=
  match days with
  | [] => mx
  | d :: days' =>
      if String.eqb d date
      then runMaxDays date (soFar + 1) mx days'
      else runMaxDays d 1 (Z.max mx soFar) days'
  end.

(** ** Sample record sets *)

(** Three readings on two days, given latest first as the phone
    application exports them, and one row that is not a reading. *)
Definition sampleReadings : list (list string) :=
  [ ["Jan 03 2020 07:30:00"; "121"; "81"; "62"; ""];
    ["Jan 02 2020 20:00:00"; "120"; "80"; "60"; "evening"];
    ["not a date"; "0"; "0"; "0"; ""];
    ["Jan 02 2020 08:00:00"; "118"; "79"; "61"; "morning"] ].

(** Two readings of one day. *)
Definition sampleSameDay : list (list string) :=
  [ ["Jan 02 2020 08:00:00"; "118"; "79"; "61"; "morning"];
    ["Jan 02 2020 20:00:00"; "120"; "80"; "60"; "evening"] ].

(** A single row whose timestamp does not parse. *)
Definition sampleUnparseable : list (list string) :=
  [ ["yesterday"; "120"; "80"; "60"; "x"] ].

(** A sorted set of normalized rows whose final day has the most
    readings, followed by a marked row. *)
Definition sampleSorted : list (list string) :=
  [ ["2020-01-01 08:00:00"; "117"; "78"; "60"; ""];
    ["2020-01-02 08:00:00"; "118"; "79"; "61"; "morning"];
    ["2020-01-02 20:00:00"; "120"; "80"; "60"; "evening"];
    ["ZZZZ"; "0"; "0"; "0"; ""] ].

(** An input whose first row has four columns only. *)
Definition sampleShortHeader : Reader :=
  mkReader (Some ["Date Time"; "Systolic"; "Diastolic"; "Pulse"])
           (Some sampleSameDay).

(** ** The rest of the repository *)

(** *** The command line entry point ([main.go]) *)

Inductive MainError : Type :=
| UsageError
| ConversionError (e : ConvError).

(** What a run of [main] leaves: the error kept in [executeError], the
    status the process exits with ([None] when [main] returns), and the
    events on the output file. *)
Record MainOutcome : Type := mkMainOutcome {
  executeError : option MainError;
  exitStatus : option Z;
  mainTrace : list Event
}.

(** [main], for the argument list [os.Args] (the program name first).  A
    panic ends a Go program with status 2. *)
Definition main (args : list string) (unitTesting : bool) (env : Env)
  (res : MainOutcome) : Prop :=
  if (length args =? 3)%nat then
    exists run,
      ConvertBloodPressureCSVToDaily env false run /\
      match run with
      | Returned None trace => res = mkMainOutcome None None trace
      | Returned (Some e) trace =>
          res = mkMainOutcome (Some (ConversionError e))
                  (if unitTesting then None else Some 1%Z) trace
      | Crashed trace => res = mkMainOutcome None (Some 2%Z) trace
      end
  else
    res = mkMainOutcome (Some UsageError)
            (if unitTesting then None else Some 1%Z) [].

(** The earlier entry function that the single-file [main.go] keeps:
    [os.Stat] on the output path is only asked whether it failed for a
    reason other than the file not existing. *)
Definition convertBloodPressureCSVToDaily (env : Env) (overwrite : bool)
  (run : Run) : Prop :=
  match outputStat env with
  | StatFailed => run = Returned (Some ErrOutputExists) []
  | _ =>
      match inputOpens env with
      | None => run = Returned (Some ErrOpenInput) []
      | Some reader => checkForHeaderRecord reader env run
      end
  end.

(** *** The comparison of the tests ([outputIsAsExpected]) *)

Inductive CompareError : Type :=
| LineCountDiffers (outputlineCount expectedlineCount : nat)
| LineDiffers (expected found : string).

(** The loop [for i := 0; i < expectedlineCount; i++] over the two line
    lists. *)
Fixpoint compareLines (fuel i : nat) (outputlines expectedlines : list string)
  : result (option CompareError) :=
  match fuel with
  | O => Ok None
  | S fuel' =>
      match outputlines !! i, expectedlines !! i with
      | Some found, Some expected =>
          if negb (String.eqb found expected)
          then Ok (Some (LineDiffers expected found))
          else compareLines fuel' (S i) outputlines expectedlines
      | _, _ => Panic
      end
  end.

(** [outputIsAsExpected] once the lines of the two files are loaded:
    [None] is the [nil] error. *)
Definition outputIsAsExpected (outputlines expectedlines : list string)
  : result (option CompareError) :=
  if negb (length outputlines =? length expectedlines)%nat
  then Ok (Some (LineCountDiffers (length outputlines) (length expectedlines)))
  else compareLines (length expectedlines) 0 outputlines expectedlines.

(** ** The merge as a function on rows

    [mergeFrom target date rest] is the accumulator at the end of the loop
    and what the loop leaves in the rows after it, when it starts to
    accumulate into [target] for [date] with [rest] still to visit. *)
Fixpoint mergeFrom (target : list string) (date : string)
  (rest : list (list string)) : list string * list (list string) :=
  match rest with
  | [] => (target, [])
  | r :: rest' =>
      if isMarked r then (target, rest)
      else if String.eqb (dayOf (key r)) date then
        let '(acc, out) := mergeFrom (target ++ r) date rest' in
        (acc, (discardMarker :: tl r) :: out)
      else
        let '(acc, out) := mergeFrom r (dayOf (key r)) rest' in
        (target, acc :: out)
  end.

Definition mergeRows (recs : list (list string)) : list (list string) :=
  match recs with
  | [] => []
  | r :: rest =>
      if isMarked r then recs
      else let '(acc, out) := mergeFrom r (dayOf (key r)) rest in acc :: out
  end.

(** A row of the merged set against the row it comes from: it is that
    row with the marker in the place of its first field, or that row with
    the fields of later rows behind it, or that row. *)
Definition rowKept (r r' : list string) : Prop :=
  r' = discardMarker :: tl r \/ exists more, r' = r ++ more.

(** A row that has fields, a whole number of times [n] of them. *)
Definition widthOf (n : nat) (r : list string) : Prop :=
  r <> [] /\ exists k, length r = (k * n)%nat.

(** The events of a run. *)
Definition runTrace (run : Run) : list Event :=
  match run with
  | Returned _ trace => trace
  | Crashed trace => trace
  end.

(** An input with the header and the two readings of one day, and an
    environment in which nothing fails and the output does not exist. *)
Definition sampleReader : Reader :=
  mkReader (Some canonicalHeader) (Some sampleSameDay).

Definition sampleEnv : Env :=
  mkEnv StatNotExist (Some sampleReader) true true true.

(** What the conversion does to the output file for [sampleEnv]. *)
Definition sampleTrace : list Event :=
  [ EvOpenTruncate;
    EvWriteHeader
      ["Date Time 1"; "Systolic 1"; "Diastolic 1"; "Pulse 1"; "Note 1"];
    EvWriteAll
      [ ["2020-01-02 08:00:00"; "118"; "79"; "61"; "morning";
         "2020-01-02 20:00:00"; "120"; "80"; "60"; "evening"] ];
    EvFlush;
    EvClose ].

(** * Properties *)

(** ** The model of [time.Parse] and [Format] on examples *)

Example parse_format_example :
  option_map GoTime.Format (GoTime.Parse "Jan 02 2020 08:15:00")
  = Some "2020-01-02 08:15:00".
Proof. reflexivity. Qed.

Example parse_rejects_example :
  GoTime.Parse "2020-01-02 08:15:00" = None
  /\ GoTime.Parse "Feb 30 2020 08:15:00" = None
  /\ GoTime.Parse "" = None.
Proof. repeat split; reflexivity. Qed.

(** ** The conversion on examples *)

Example buildHeaderRecord_two :
  buildHeaderRecord 2
  = ["Date Time 1"; "Systolic 1"; "Diastolic 1"; "Pulse 1"; "Note 1";
     "Date Time 2"; "Systolic 2"; "Diastolic 2"; "Pulse 2"; "Note 2"].
Proof. reflexivity. Qed.

Example collateStable_sampleReadings :
  collateStable sampleReadings
  = Ok (mkOutput
          ["Date Time 1"; "Systolic 1"; "Diastolic 1"; "Pulse 1"; "Note 1";
           "Date Time 2"; "Systolic 2"; "Diastolic 2"; "Pulse 2"; "Note 2"]
          [ ["2020-01-02 08:00:00"; "118"; "79"; "61"; "morning";
             "2020-01-02 20:00:00"; "120"; "80"; "60"; "evening"];
            ["2020-01-03 07:30:00"; "121"; "81"; "62"; ""] ]).
Proof. vm_compute. reflexivity. Qed.

Example collateStable_no_rows :
  collateStable []
  = Ok (mkOutput
          ["Date Time 1"; "Systolic 1"; "Diastolic 1"; "Pulse 1"; "Note 1"]
          []).
Proof. vm_compute. reflexivity. Qed.

Example combineRecordsForSameDay_short_field :
  combineRecordsForSameDay [["2020-1-2"]] = Panic
  /\ combineRecordsForSameDay [[]] = Panic.
Proof. split; reflexivity. Qed.

(** ** The order of Go strings *)

Section StringOrder.

Lemma ascii_compare_refl (c : ascii) : Ascii.compare c c = Eq.
Proof. unfold Ascii.compare. apply N.compare_refl. Qed.

Lemma string_compare_refl (s : string) : String.compare s s = Eq.
Proof.
  induction s as [|c s IH]; simpl; [reflexivity|].
  now rewrite ascii_compare_refl.
Qed.

Lemma ascii_compare_lt_trans (a b c : ascii) :
  Ascii.compare a b = Lt -> Ascii.compare b c = Lt -> Ascii.compare a c = Lt.
Proof.
  unfold Ascii.compare. rewrite !N.compare_lt_iff. lia.
Qed.

Lemma string_compare_lt_trans (a b c : string) :
  String.compare a b = Lt -> String.compare b c = Lt -> String.compare a c = Lt.
Proof.
  revert b c.
  induction a as [|x a IH]; intros [|y b] [|z c]; simpl; try congruence.
  destruct (Ascii.compare x y) eqn:Hxy; try discriminate;
    destruct (Ascii.compare y z) eqn:Hyz; try discriminate; intros Hab Hbc.
  - apply Ascii.compare_eq_iff in Hxy, Hyz. subst.
    rewrite ascii_compare_refl. eauto.
  - apply Ascii.compare_eq_iff in Hxy. subst. now rewrite Hyz.
  - apply Ascii.compare_eq_iff in Hyz. subst. now rewrite Hxy.
  - now rewrite (ascii_compare_lt_trans _ _ _ Hxy Hyz).
Qed.

Lemma gostr_lt_iff_compare (a b : string) :
  GoString.lt a b <-> String.compare a b = Lt.
Proof.
  unfold GoString.lt, String.ltb.
  destruct (String.compare a b); split; congruence.
Qed.

Lemma gostr_le_iff_compare (a b : string) :
  GoString.le a b <-> String.compare a b <> Gt.
Proof.
  unfold GoString.le, String.ltb. rewrite (String.compare_antisym a b).
  destruct (String.compare b a); simpl; split; congruence.
Qed.

Lemma gostr_le_refl (a : string) : GoString.le a a.
Proof. apply gostr_le_iff_compare. now rewrite string_compare_refl. Qed.

Lemma gostr_lt_irrefl (a : string) : ~ GoString.lt a a.
Proof. rewrite gostr_lt_iff_compare, string_compare_refl. discriminate. Qed.

Lemma gostr_lt_trans (a b c : string) :
  GoString.lt a b -> GoString.lt b c -> GoString.lt a c.
Proof. rewrite !gostr_lt_iff_compare. apply string_compare_lt_trans. Qed.

Lemma gostr_le_cases (a b : string) :
  GoString.le a b <-> GoString.lt a b \/ a = b.
Proof.
  rewrite gostr_le_iff_compare, gostr_lt_iff_compare. split.
  - destruct (String.compare a b) eqn:E; intros H; try congruence.
    + right. now apply String.compare_eq_iff.
    + now left.
  - intros [H| ->]; [congruence|]. rewrite string_compare_refl. discriminate.
Qed.

Lemma gostr_not_lt_le (a b : string) : ~ GoString.lt b a <-> GoString.le a b.
Proof.
  unfold GoString.lt, GoString.le. destruct (String.ltb b a); split; congruence.
Qed.

Lemma gostr_lt_le_incl (a b : string) : GoString.lt a b -> GoString.le a b.
Proof. intros H. apply gostr_le_cases. now left. Qed.

Lemma gostr_lt_asym (a b : string) : GoString.lt a b -> ~ GoString.lt b a.
Proof.
  intros H1 H2. exact (gostr_lt_irrefl a (gostr_lt_trans _ _ _ H1 H2)).
Qed.

Lemma gostr_le_trans (a b c : string) :
  GoString.le a b -> GoString.le b c -> GoString.le a c.
Proof.
  rewrite !gostr_le_cases. intros [H1| ->] [H2| ->]; auto.
  left. eapply gostr_lt_trans; eauto.
Qed.

Lemma gostr_le_antisym (a b : string) :
  GoString.le a b -> GoString.le b a -> a = b.
Proof.
  rewrite !gostr_le_cases. intros [H1| ->] [H2| H2]; auto.
  destruct (gostr_lt_asym _ _ H1 H2).
Qed.

Lemma gostr_le_total (a b : string) : GoString.le a b \/ GoString.le b a.
Proof.
  destruct (String.ltb b a) eqn:E; [right|left; exact E].
  apply gostr_lt_le_incl. exact E.
Qed.

Lemma gostr_lt_le_trans (a b c : string) :
GoString.lt a b -> GoString.le b c -> GoString.lt a c.
Proof.
  rewrite gostr_le_cases.
  intros H [H2| <-]; [eapply gostr_lt_trans; eauto | exact H].
Qed.

Lemma gostr_le_lt_trans (a b c : string) :
  GoString.le a b -> GoString.lt b c -> GoString.lt a c.
Proof.
  rewrite gostr_le_cases.
  intros [H| ->] H2; [eapply gostr_lt_trans; eauto | exact H2].
Qed.

(** Cutting two strings at the same length keeps their order. *)
Lemma substring_le (n : nat) (a b : string) :
  GoString.le a b ->
  GoString.le (String.substring 0 n a) (String.substring 0 n b).
Proof.
  rewrite !gostr_le_iff_compare. revert a b.
  induction n as [|n IH]; intros [|x a] [|y b]; simpl; try congruence.
  destruct (Ascii.compare x y); try congruence. apply IH.
Qed.

End StringOrder.

#[export] Instance notAfter_total : Total notAfter.
Proof. intros a b. apply gostr_le_total. Qed.

#[export] Instance notAfter_trans : Transitive notAfter.
Proof. intros a b c. apply gostr_le_trans. Qed.

(** ** The normalized timestamp *)

Section Timestamp.

Import GoTime.
Local Open Scope Z_scope.

Lemma digitOf_bound (c : ascii) (d : Z) : digitOf c = Some d -> 0 <= d < 10.
Proof.
  unfold digitOf. destruct (_ && _) eqn:E; [|discriminate].
  intros [= <-]. apply andb_prop in E as [E1 E2]. lia.
Qed.

Lemma utod_digit (u : Z) : 0 <= u < 10 -> isDigitChar (utod u) = true.
Proof.
  intros H.
  assert (u = 0 \/ u = 1 \/ u = 2 \/ u = 3 \/ u = 4 \/ u = 5 \/ u = 6
          \/ u = 7 \/ u = 8 \/ u = 9) as Hu by lia.
  repeat (destruct Hu as [->|Hu]; [reflexivity|]). now subst.
Qed.

Lemma getnum_bound (s : string) (fixed : bool) (n : Z) (rest : string) :
  getnum s fixed = Some (n, rest) -> 0 <= n < 100.
Proof.
  unfold getnum. destruct s as [|c0 [|c1 s2]]; try discriminate;
    destruct (digitOf c0) as [d0|] eqn:E0; try discriminate;
    apply digitOf_bound in E0.
  - destruct fixed; [discriminate|]. intros [= <- _]. lia.
  - destruct (digitOf c1) as [d1|] eqn:E1.
    + apply digitOf_bound in E1. intros [= <- _]. lia.
    + destruct fixed; [discriminate|]. intros [= <- _]. lia.
Qed.

Lemma getyear_bound (s : string) (n : Z) (rest : string) :
  getyear s = Some (n, rest) -> 0 <= n < 10000.
Proof.
  unfold getyear. destruct s as [|c0 [|c1 [|c2 [|c3 r]]]]; try discriminate.
  destruct (digitOf c0) eqn:E0, (digitOf c1) eqn:E1,
           (digitOf c2) eqn:E2, (digitOf c3) eqn:E3; try discriminate.
  apply digitOf_bound in E0, E1, E2, E3. intros [= <- _]. lia.
Qed.

Lemma lookup_bound (tab : list string) (i : Z) (value : string) (m : Z)
      (rest : string) :
  lookup tab i value = Some (m, rest) ->
  i < m <= i + Z.of_nat (length tab).
Proof.
  revert i. induction tab as [|name tab IH]; intros i; simpl; [discriminate|].
  destruct (matchName name value).
  - intros [= <- _]. lia.
  - intros H. apply IH in H. lia.
Qed.

(** What [Parse] accepts has its fields in the ranges that [Format]
    prints with two and with four digits. *)
Lemma Parse_ranges (value : string) (t : Time) :
  Parse value = Some t ->
  0 <= year t < 10000 /\ 0 <= month t < 100 /\ 0 <= day t < 100 /\
  0 <= hour t < 100 /\ 0 <= minute t < 100 /\ 0 <= second t < 100.
Proof.
  unfold Parse. intros H.
  repeat match type of H with
         | mbind _ ?o = Some _ =>
             let E := fresh "E" in
             destruct o as [[? ?]|] eqn:E; simpl in H; [|discriminate]
         | mbind _ ?o = Some _ =>
             let E := fresh "E" in
             destruct o as [?|] eqn:E; simpl in H; [|discriminate]
         | (if ?b then None else _) = Some _ =>
             destruct b; [discriminate|]
         | match ?s with EmptyString => _ | String _ _ => None end = Some _ =>
             destruct s; [|discriminate]
         end.
  injection H as <-. simpl.
  repeat match goal with
         | E : getnum _ _ = Some _ |- _ => apply getnum_bound in E
         | E : getyear _ = Some _ |- _ => apply getyear_bound in E
         | E : lookup _ _ _ = Some _ |- _ => apply lookup_bound in E; simpl in E
         end.
  lia.
Qed.

Lemma appendInt2 (u : Z) :
  0 <= u < 100 ->
  exists a b, appendInt u 2 = String a (String b EmptyString)
              /\ isDigitChar a = true /\ isDigitChar b = true.
Proof.
  intros H. unfold appendInt. simpl.
  destruct (u <? 100) eqn:E; [|lia].
  eexists _, _. split; [reflexivity|].
  split; apply utod_digit.
  - split; [apply Z.div_pos; lia | apply Z.div_lt_upper_bound; lia].
  - apply Z.mod_pos_bound. lia.
Qed.

Lemma appendInt4 (u : Z) :
  0 <= u < 10000 ->
  exists a b c d,
    appendInt u 4 = String a (String b (String c (String d EmptyString)))
    /\ isDigitChar a = true /\ isDigitChar b = true
    /\ isDigitChar c = true /\ isDigitChar d = true.
Proof.
  intros H. unfold appendInt. simpl.
  destruct (u <? 10000) eqn:E; [|lia].
  eexists _, _, _, _. split; [reflexivity|].
  repeat split; apply utod_digit;
    try (apply Z.mod_pos_bound; lia).
  split; [apply Z.div_pos; lia | apply Z.div_lt_upper_bound; lia].
Qed.

Lemma Format_canonical (t : Time) :
  0 <= year t < 10000 -> 0 <= month t < 100 -> 0 <= day t < 100 ->
  0 <= hour t < 100 -> 0 <= minute t < 100 -> 0 <= second t < 100 ->
  isCanonicalTimestamp (Format t) = true.
Proof.
  intros Hy Hm Hd Hh Hi Hs. unfold Format.
  destruct (appendInt4 _ Hy) as (y0 & y1 & y2 & y3 & -> & ? & ? & ? & ?).
  destruct (appendInt2 _ Hm) as (m0 & m1 & -> & ? & ?).
  destruct (appendInt2 _ Hd) as (d0 & d1 & -> & ? & ?).
  destruct (appendInt2 _ Hh) as (h0 & h1 & -> & ? & ?).
  destruct (appendInt2 _ Hi) as (i0 & i1 & -> & ? & ?).
  destruct (appendInt2 _ Hs) as (e0 & e1 & -> & ? & ?).
  unfold isCanonicalTimestamp. simpl.
  repeat match goal with
         | H : isDigitChar _ = true |- _ => rewrite H; clear H
         end.
  reflexivity.
Qed.

(** Whatever [Parse] accepts, [Format] prints in the canonical shape. *)
Lemma Parse_Format_canonical (value : string) (t : Time) :
  Parse value = Some t -> isCanonicalTimestamp (Format t) = true.
Proof.
  intros H. apply Parse_ranges in H as (? & ? & ? & ? & ? & ?).
  now apply Format_canonical.
Qed.

End Timestamp.

Section Canonical.

Lemma canonical_shape (s : string) :
  isCanonicalTimestamp s = true ->
  String.length s = 19%nat /\
  exists c rest, s = String c rest /\ GoTime.isDigitChar c = true.
Proof.
  intros H. unfold isCanonicalTimestamp in H.
  assert (String.length s = 19%nat) as Hlen.
  { do 19 (destruct s as [|? s]; [simpl in H; discriminate H|]).
    destruct s; [reflexivity|simpl in H; discriminate H]. }
  split; [exact Hlen|].
  destruct s as [|c rest]; [discriminate Hlen|].
  exists c, rest. split; [reflexivity|].
  do 18 (destruct rest as [|? rest]; [simpl in H; discriminate H|]).
  destruct rest; [|simpl in H; discriminate H].
  simpl in H. repeat (apply andb_prop in H as [H _]). exact H.
Qed.

Lemma digit_before_Z (c : ascii) :
  GoTime.isDigitChar c = true -> Ascii.compare c "Z" = Lt.
Proof.
  unfold GoTime.isDigitChar, GoTime.digitOf.
  destruct (_ && _) eqn:E; [|discriminate]. intros _.
  apply andb_prop in E as [_ E]. unfold Ascii.compare.
  apply N.compare_lt_iff. simpl. lia.
Qed.

(** The marker is greater than every normalized timestamp. *)
Lemma canonical_lt_marker (s : string) :
  isCanonicalTimestamp s = true -> GoString.lt s discardMarker.
Proof.
  intros H. apply canonical_shape in H as (_ & c & rest & -> & Hc).
  apply gostr_lt_iff_compare. simpl. now rewrite (digit_before_Z _ Hc).
Qed.

Lemma canonical_not_marker (s : string) :
  isCanonicalTimestamp s = true -> s <> discardMarker.
Proof. intros H ->. discriminate H. Qed.

Lemma canonical_slice (s : string) :
  isCanonicalTimestamp s = true ->
  GoString.slice s 0 10 = Ok (String.substring 0 10 s).
Proof.
  intros H. apply canonical_shape in H as (Hlen & _).
  unfold GoString.slice. now rewrite Hlen.
Qed.

End Canonical.

Section WellKeyed.

Lemma wellKeyed_nonempty (r : list string) : wellKeyed r -> r <> [].
Proof. now destruct r. Qed.

Lemma wellKeyed_key (r : list string) :
  wellKeyed r <->
  r <> [] /\ (key r = discardMarker \/ isCanonicalTimestamp (key r) = true).
Proof.
  destruct r as [|f r]; simpl; split.
  - intros [].
  - intros [H _]. now apply H.
  - intros H. split; [discriminate|exact H].
  - now intros [_ H].
Qed.

Lemma isMarked_true (r : list string) :
  isMarked r = true <-> key r = discardMarker.
Proof. unfold isMarked. apply String.eqb_eq. Qed.

Lemma isMarked_false (r : list string) :
  isMarked r = false <-> key r <> discardMarker.
Proof. unfold isMarked. apply String.eqb_neq. Qed.

Lemma wellKeyed_unmarked (r : list string) :
  wellKeyed r -> isMarked r = false -> isCanonicalTimestamp (key r) = true.
Proof.
  intros Hw Hm. apply wellKeyed_key in Hw as [_ [H|H]]; [|exact H].
  apply isMarked_false in Hm. contradiction.
Qed.

Lemma field0_key (r : list string) : r <> [] -> field0 r = Ok (key r).
Proof. now destruct r. Qed.

End WellKeyed.

(** ** convertBPDateTimes *)

Section Convert.

Lemma insert_middle {A : Type} (pre suf : list A) (x y : A) :
  <[length pre := y]> (pre ++ x :: suf) = pre ++ y :: suf.
Proof. induction pre as [|a pre IH]; simpl; [reflexivity|]. now f_equal. Qed.

Lemma convertLoop_app (suf pre : list (list string)) :
  convertLoop (length suf) (length pre) (pre ++ suf)
  = pre ++ map convertRecord suf.
Proof.
  revert pre. induction suf as [|r suf IH]; intros pre; simpl; [reflexivity|].
  rewrite list_lookup_middle by reflexivity.
  rewrite insert_middle.
  specialize (IH (pre ++ [convertRecord r])).
  rewrite length_app in IH. simpl in IH.
  replace (length pre + 1)%nat with (S (length pre)) in IH by lia.
  rewrite <- !app_assoc in IH. simpl in IH. exact IH.
Qed.

(** The loop rewrites every row by itself. *)
Lemma convertBPDateTimes_map (recs : list (list string)) :
  convertBPDateTimes recs = map convertRecord recs.
Proof. exact (convertLoop_app recs []). Qed.

Lemma convertRecord_wellKeyed (r : list string) : wellKeyed (convertRecord r).
Proof.
  destruct r as [|f rest]; simpl; [now left|].
  destruct (GoTime.Parse f) eqn:E; simpl; [right|now left].
  eapply Parse_Format_canonical; eauto.
Qed.

Lemma convertBPDateTimes_wellKeyed (recs : list (list string)) :
  Forall wellKeyed (convertBPDateTimes recs).
Proof.
  rewrite convertBPDateTimes_map. apply Forall_map, Forall_forall.
  intros r _. apply convertRecord_wellKeyed.
Qed.

End Convert.

(** ** sort.Slice *)

Section Sorting.

Lemma filter_all {A : Type} (P : A -> Prop) `{forall x, Decision (P x)}
      (l : list A) :
  Forall P l -> filter P l = l.
Proof.
  induction 1 as [|x l Hx _ IH]; [reflexivity|].
  rewrite filter_cons_True by exact Hx. now f_equal.
Qed.

Lemma filter_none {A : Type} (P : A -> Prop) `{forall x, Decision (P x)}
      (l : list A) :
  Forall (fun x => ~ P x) l -> filter P l = [].
Proof.
  induction 1 as [|x l Hx _ IH]; [reflexivity|].
  now rewrite filter_cons_False by exact Hx.
Qed.

Lemma wellKeyed_perm (l1 l2 : list (list string)) :
  l1 ≡ₚ l2 -> Forall wellKeyed l1 -> Forall wellKeyed l2.
Proof. intros HP H. now rewrite <- HP. Qed.

(** On normalized rows the comparator cannot panic. *)
Lemma sortSlice_wellKeyed (recs : list (list string))
      (out : result (list (list string))) :
  Forall wellKeyed recs -> sortSlice recs out ->
  exists sorted,
    out = Ok sorted /\ recs ≡ₚ sorted /\
    StronglySorted notAfter sorted /\ Forall wellKeyed sorted.
Proof.
  intros Hw [sorted _ HP HS | _ Hex].
  - exists sorted. eauto using wellKeyed_perm.
  - exfalso. apply Exists_exists in Hex as (r & Hin & ->).
    rewrite Forall_forall in Hw. exact (Hw _ Hin).
Qed.

(** A stable merge sort is one of the behaviours of [sort.Slice]. *)
Lemma sortSlice_merge_sort (recs : list (list string)) :
  Forall (fun r => r <> []) recs ->
  sortSlice recs (Ok (merge_sort notAfter recs)).
Proof.
  intros H. constructor.
  - now right.
  - symmetry. apply merge_sort_Permutation.
  - apply StronglySorted_merge_sort; apply _.
Qed.

(** [sort.Slice] always has an outcome. *)
Lemma sortSlice_total (recs : list (list string)) :
  exists out, sortSlice recs out.
Proof.
  destruct (decide (Forall (fun r => r <> []) recs)) as [H|H].
  - eexists. now apply sortSlice_merge_sort.
  - destruct (decide (length recs <= 1)%nat) as [Hl|Hl].
    + exists (Ok (merge_sort notAfter recs)). constructor.
      * now left.
      * symmetry. apply merge_sort_Permutation.
      * apply StronglySorted_merge_sort; apply _.
    + exists Panic. constructor; [lia|].
      apply not_Forall_Exists in H; [|intros x; apply _].
      eapply Exists_impl; [exact H|]. intros r Hr. simpl in Hr.
      destruct r; [reflexivity|]. exfalso. apply Hr. discriminate.
Qed.

Lemma NoDup_key_inj (l : list (list string)) (a b : list string) :
  NoDup (map key l) -> a ∈ l -> b ∈ l -> key a = key b -> a = b.
Proof.
  induction l as [|x l IH]; intros Hnd Ha Hb Hk; [inversion Ha|].
  simpl in Hnd. apply NoDup_cons in Hnd as [Hx Hnd].
  apply elem_of_cons in Ha as [->|Ha]; apply elem_of_cons in Hb as [->|Hb];
    auto.
  - exfalso. apply Hx. rewrite Hk. now apply (list_elem_of_fmap_2 key).
  - exfalso. apply Hx. rewrite <- Hk. now apply (list_elem_of_fmap_2 key).
Qed.

(** Rows with pairwise distinct first fields have one sorted order. *)
Lemma sorted_unique_keys (l1 l2 : list (list string)) :
  NoDup (map key l1) -> l1 ≡ₚ l2 ->
  StronglySorted notAfter l1 -> StronglySorted notAfter l2 -> l1 = l2.
Proof.
  intros Hnd HP H1 H2.
  apply (StronglySorted_unique_strong notAfter); auto.
  intros x1 x2 Hx1 Hx2 Hle Hge.
  apply (NoDup_key_inj l1); auto.
  - now rewrite HP.
  - now apply gostr_le_antisym.
Qed.

Lemma wellKeyed_after_marked (a b : list string) :
  wellKeyed b -> isMarked a = true -> notAfter a b -> isMarked b = true.
Proof.
  intros Hb Ha Hle. destruct (isMarked b) eqn:E; [reflexivity|exfalso].
  pose proof (wellKeyed_unmarked _ Hb E) as Hc.
  apply canonical_lt_marker in Hc. apply isMarked_true in Ha.
  unfold notAfter in Hle. rewrite Ha in Hle.
  apply gostr_not_lt_le in Hle. contradiction.
Qed.

(** In a sorted set of normalized rows the marked rows are all at the
    end. *)
Lemma sorted_split_marked (l : list (list string)) :
  StronglySorted notAfter l -> Forall wellKeyed l ->
  l = filter unmarked l ++ filter (fun r => ~ unmarked r) l.
Proof.
  induction 1 as [|a l HS IH Ha]; intros Hw; [reflexivity|].
  apply Forall_cons in Hw as [Hwa Hw].
  destruct (isMarked a) eqn:E.
  - assert (Forall (fun r => ~ unmarked r) (a :: l)) as Hall.
    { constructor; [unfold unmarked; congruence|].
      rewrite Forall_forall in Ha, Hw |- *. intros b Hb.
      unfold unmarked.
      rewrite (wellKeyed_after_marked a b); auto. }
    assert (filter unmarked (a :: l) = []) as ->.
    { apply filter_none. exact Hall. }
    simpl. symmetry. now apply filter_all.
  - rewrite filter_cons_True by exact E.
    rewrite (filter_cons_False (fun r => ~ unmarked r))
      by (intros H; now apply H).
    simpl. f_equal. now apply IH.
Qed.

End Sorting.

(** ** combineRecordsForSameDay *)

Section Combine.

Lemma key_app (a b : list string) : a <> [] -> key (a ++ b) = key a.
Proof. now destruct a. Qed.

Lemma map_key_insert_app (pre : list (list string)) (i : nat)
      (target extra : list string) :
  pre !! i = Some target -> target <> [] ->
  map key (<[i := target ++ extra]> pre) = map key pre.
Proof.
  revert i. induction pre as [|a pre IH]; intros [|i] Hi Hne; simpl in *;
    try discriminate.
  - injection Hi as ->. now rewrite key_app.
  - f_equal. now apply IH.
Qed.

Lemma Forall_nonempty_insert (pre : list (list string)) (i : nat)
      (r : list string) :
  r <> [] -> Forall (fun r => r <> []) pre ->
  Forall (fun r => r <> []) (<[i := r]> pre).
Proof. intros Hr Hpre. now apply Forall_insert. Qed.

(** The loop from [index = length pre] on, when the rows before [index]
    have been visited and the rows from [index] on are as the sort left
    them. *)
Lemma combineLoop_keys (suf : list (list string)) :
  forall (pre : list (list string)) (acc : nat) (date : string) (soFar mx : Z),
    (acc < length pre)%nat ->
    Forall (fun r => r <> []) pre ->
    Forall wellKeyed suf ->
    exists st,
      combineLoop (length suf) (length pre)
        (mkMergeState (pre ++ suf) acc date soFar mx) = Ok st
      /\ map key (records st) = map key pre ++ markRepeats date (map key suf)
      /\ Forall (fun r => r <> []) (records st)
      /\ maxReadingsInOneDay st = runMax date soFar mx (map key suf).
Proof.
  induction suf as [|r suf IH]; intros pre acc date soFar mx Hacc Hpre Hsuf.
  - eexists. split; [reflexivity|]. simpl. rewrite !app_nil_r. auto.
  - apply Forall_cons in Hsuf as [Hr Hsuf].
    destruct r as [|first rest]; [destruct Hr|].
    cbn [combineLoop length]. unfold combineBody. cbn [records].
    rewrite list_lookup_middle by reflexivity. cbn [field0 map key hd].
    cbn [markRepeats runMax].
    destruct (String.eqb first discardMarker) eqn:Em.
    + eexists. split; [reflexivity|]. cbn [records maxReadingsInOneDay].
      split; [|split; [|reflexivity]].
      * now rewrite map_app.
      * apply Forall_app. split; [exact Hpre|].
        constructor; [discriminate|].
        eapply Forall_impl; [exact Hsuf|]. apply wellKeyed_nonempty.
    + assert (isCanonicalTimestamp first = true) as Hc.
      { destruct Hr as [->|Hc]; [discriminate Em|exact Hc]. }
      rewrite (canonical_slice _ Hc). fold (dayOf first).
      destruct (length pre =? 0)%nat eqn:El; [apply Nat.eqb_eq in El; lia|].
      cbn [accumulateDate accumulateIndex readingsAccumulatedSoFar
           maxReadingsInOneDay].
      destruct (String.eqb (dayOf first) date) eqn:Ed.
      * destruct (lookup_lt_is_Some_2 pre acc Hacc) as [target Ht].
        rewrite (lookup_app_l_Some _ _ _ _ Ht).
        assert (target <> []) as Hne.
        { exact (Forall_lookup_1 _ _ _ _ Hpre Ht). }
        rewrite insert_app_l by exact Hacc.
        replace (length pre)
          with (length (<[acc := target ++ first :: rest]> pre))
          by apply length_insert.
        rewrite insert_middle. cbn [tl].
        set (pre' := <[acc := target ++ first :: rest]> pre).
        specialize (IH (pre' ++ [discardMarker :: rest]) acc date
                       (soFar + 1)%Z mx).
        rewrite length_app in IH. cbn [length] in IH.
        rewrite Nat.add_1_r in IH. rewrite <- app_assoc in IH. cbn [app] in IH.
        destruct IH as (st & Hrun & Hkeys & Hne' & Hmax).
        { subst pre'. rewrite length_insert. lia. }
        { apply Forall_app. split.
          - subst pre'. apply Forall_nonempty_insert; [|exact Hpre].
            now destruct target.
          - constructor; [discriminate|constructor]. }
        { exact Hsuf. }
        exists st. split; [exact Hrun|]. split; [|split; assumption].
        rewrite Hkeys, map_app. subst pre'.
        rewrite (map_key_insert_app _ _ _ _ Ht Hne).
        now rewrite <- app_assoc.
      * specialize (IH (pre ++ [first :: rest]) (length pre) (dayOf first)
                       1%Z (Z.max mx soFar)).
        rewrite length_app in IH. cbn [length] in IH.
        rewrite Nat.add_1_r in IH. rewrite <- app_assoc in IH. cbn [app] in IH.
        destruct IH as (st & Hrun & Hkeys & Hne' & Hmax).
        { lia. }
        { apply Forall_app. split; [exact Hpre|].
          constructor; [discriminate|constructor]. }
        { exact Hsuf. }
        exists st.
        replace (if (soFar >? mx)%Z then soFar else mx) with (Z.max mx soFar)
          by (destruct (soFar >? mx)%Z eqn:E; lia).
        split; [exact Hrun|]. split; [|split; assumption].
        rewrite Hkeys, map_app. now rewrite <- app_assoc.
Qed.

(** The merge on a set of normalized rows: it does not panic, and its
    effect on the first fields and the integer it returns are those of
    [mergedKeys] and [returnedMax]. *)
Lemma combineRecordsForSameDay_keys (recs : list (list string)) :
  Forall wellKeyed recs ->
  exists combined m,
    combineRecordsForSameDay recs = Ok (combined, m)
    /\ map key combined = mergedKeys (map key recs)
    /\ Forall (fun r => r <> []) combined
    /\ m = returnedMax (map key recs).
Proof.
  intros Hw. unfold combineRecordsForSameDay.
  destruct recs as [|r recs].
  - exists [], 1%Z. repeat split; constructor.
  - apply Forall_cons in Hw as [Hr Hw].
    destruct r as [|first rest]; [destruct Hr|].
    cbn [combineLoop length]. unfold combineBody. cbn [records lookup].
    cbn [list_lookup field0 map key hd mergedKeys returnedMax].
    destruct (String.eqb first discardMarker) eqn:Em.
    + eexists _, _. cbn [bindR records maxReadingsInOneDay].
      split; [reflexivity|]. split; [reflexivity|]. split; [|reflexivity].
      constructor; [discriminate|].
      eapply Forall_impl; [exact Hw|]. apply wellKeyed_nonempty.
    + assert (isCanonicalTimestamp first = true) as Hc.
      { destruct Hr as [->|Hc]; [discriminate Em|exact Hc]. }
      rewrite (canonical_slice _ Hc). fold (dayOf first).
      cbn [Nat.eqb accumulateIndex readingsAccumulatedSoFar
           maxReadingsInOneDay].
      destruct (combineLoop_keys recs [first :: rest] 0 (dayOf first) 1 1)
        as (st & Hrun & Hkeys & Hne & Hmax).
      { simpl. lia. }
      { constructor; [discriminate|constructor]. }
      { exact Hw. }
      cbn [length app] in Hrun. rewrite Hrun. cbn [bindR].
      eexists _, _. split; [reflexivity|]. auto.
Qed.

End Combine.

(** ** buildHeaderRecord *)

Section Header.

Lemma addHeadingSet_length (hdr : list string) (n : Z) :
  length (addHeadingSet hdr n) = (length hdr + 5)%nat.
Proof. unfold addHeadingSet. now rewrite length_app. Qed.

Lemma headerLoop_length (fuel : nat) :
  forall (i maxReadings : Z) (hdr : list string),
    Z.of_nat fuel = (maxReadings - i)%Z ->
    length (headerLoop fuel i maxReadings hdr) = (length hdr + 5 * fuel)%nat.
Proof.
  induction fuel as [|fuel IH]; intros i m hdr Hf; simpl; [lia|].
  destruct (i <? m)%Z eqn:E; [|lia].
  rewrite IH by lia. rewrite addHeadingSet_length. lia.
Qed.

(** The header has five columns for every unit of the integer it is built
    from. *)
Lemma buildHeaderRecord_length (maxReadings : Z) :
  (0 <= maxReadings)%Z ->
  Z.of_nat (length (buildHeaderRecord maxReadings)) = (5 * maxReadings)%Z.
Proof.
  intros H. unfold buildHeaderRecord.
  rewrite headerLoop_length by lia. simpl. lia.
Qed.

End Header.

(** ** discardMarkedRecords *)

Section Trim.

Lemma scanBack_marked_tail (kept marked : list (list string)) (fuel j : nat) :
  kept <> [] ->
  Forall unmarked kept -> Forall (fun r => r <> []) kept ->
  Forall (fun r => ~ unmarked r) marked -> Forall (fun r => r <> []) marked ->
  (j <= length marked)%nat -> (j < fuel)%nat ->
  scanBack fuel (kept ++ marked) (Z.of_nat (length kept + j) - 1)
  = Ok (Z.of_nat (length kept) - 1)%Z.
Proof.
  intros Hne Hk Hkn Hm Hmn. revert fuel.
  induction j as [|j IH]; intros fuel Hj Hf;
    (destruct fuel as [|fuel]; [lia|]); cbn [scanBack].
  - rewrite Nat.add_0_r.
    destruct (Z.gtb_spec (Z.of_nat (length kept) - 1) 0) as [E|E];
      [|reflexivity].
    assert (Z.to_nat (Z.of_nat (length kept) - 1) < length kept)%nat as Hlt
      by lia.
    destruct (lookup_lt_is_Some_2 kept _ Hlt) as [r Hr].
    rewrite (lookup_app_l_Some _ _ _ _ Hr).
    pose proof (Forall_lookup_1 _ _ _ _ Hk Hr) as Hu.
    pose proof (Forall_lookup_1 _ _ _ _ Hkn Hr) as Hrn.
    rewrite (field0_key _ Hrn). fold (isMarked r). now rewrite Hu.
  - destruct (Z.gtb_spec (Z.of_nat (length kept + S j) - 1) 0) as [E|E].
    2:{ destruct kept; [contradiction|cbn [length] in E; lia]. }
    replace (Z.to_nat (Z.of_nat (length kept + S j) - 1))
      with (length kept + j)%nat by lia.
    rewrite lookup_app_r by lia.
    replace (length kept + j - length kept)%nat with j by lia.
    assert (j < length marked)%nat as Hlt by lia.
    destruct (lookup_lt_is_Some_2 marked _ Hlt) as [r Hr]. rewrite Hr.
    pose proof (Forall_lookup_1 _ _ _ _ Hm Hr) as Hu.
    pose proof (Forall_lookup_1 _ _ _ _ Hmn Hr) as Hrn.
    rewrite (field0_key _ Hrn). fold (isMarked r).
    unfold unmarked in Hu. destruct (isMarked r); [|congruence]. cbn [negb].
    replace (Z.of_nat (length kept + S j) - 1 - 1)%Z
      with (Z.of_nat (length kept + j) - 1)%Z by lia.
    apply IH; lia.
Qed.

Lemma scanBack_all_marked (marked : list (list string)) (fuel j : nat) :
  Forall (fun r => ~ unmarked r) marked -> Forall (fun r => r <> []) marked ->
  (j < length marked)%nat -> (j < fuel)%nat ->
  scanBack fuel marked (Z.of_nat j) = Ok 0%Z.
Proof.
  intros Hm Hmn. revert fuel.
  induction j as [|j IH]; intros fuel Hj Hf;
    (destruct fuel as [|fuel]; [lia|]); cbn [scanBack]; [reflexivity|].
  destruct (Z.gtb_spec (Z.of_nat (S j)) 0) as [E|E]; [|lia].
  rewrite Nat2Z.id.
  destruct (lookup_lt_is_Some_2 marked _ Hj) as [r Hr]. rewrite Hr.
  pose proof (Forall_lookup_1 _ _ _ _ Hm Hr) as Hu.
  pose proof (Forall_lookup_1 _ _ _ _ Hmn Hr) as Hrn.
  rewrite (field0_key _ Hrn). fold (isMarked r).
  unfold unmarked in Hu. destruct (isMarked r); [|congruence]. cbn [negb].
  replace (Z.of_nat (S j) - 1)%Z with (Z.of_nat j) by lia.
  apply IH; lia.
Qed.

(** The trim of a sorted set of normalized rows keeps the rows that are
    not marked; when every row is marked it keeps the row at index 0. *)
Lemma trimMarked_sorted (l : list (list string)) :
  StronglySorted notAfter l -> Forall wellKeyed l ->
  trimMarked l
  = Ok (match filter unmarked l with [] => take 1 l | kept => kept end).
Proof.
  intros HS Hw. pose proof (sorted_split_marked l HS Hw) as Hsplit.
  assert (Forall (fun r => r <> []) l) as Hn
    by (eapply Forall_impl; [exact Hw|apply wellKeyed_nonempty]).
  set (kept := filter unmarked l) in *.
  set (marked := filter (fun r => ~ unmarked r) l) in *.
  assert (Forall unmarked kept) as Hk.
  { apply Forall_forall. intros r Hr. now apply list_elem_of_filter in Hr. }
  assert (Forall (fun r => ~ unmarked r) marked) as Hm.
  { apply Forall_forall. intros r Hr. now apply list_elem_of_filter in Hr. }
  assert (Forall (fun r => r <> []) kept /\ Forall (fun r => r <> []) marked)
    as [Hkn Hmn].
  { rewrite Hsplit in Hn. now apply Forall_app in Hn. }
  clearbody kept marked. subst l. clear HS Hw Hn.
  unfold trimMarked. destruct kept as [|k kept'].
  - cbn [app]. destruct marked as [|m marked'].
    + reflexivity.
    + replace (Z.of_nat (length (m :: marked')) - 1)%Z
        with (Z.of_nat (length marked')) by (cbn [length]; lia).
      rewrite scanBack_all_marked; auto; cbn [length]; try lia.
      cbn [bindR]. unfold sliceTo. change (0 + 1)%Z with 1%Z.
      destruct (Z.leb_spec 1 (Z.of_nat (length (m :: marked'))));
        [reflexivity|cbn [length] in *; lia].
  - replace (Z.of_nat (length ((k :: kept') ++ marked)) - 1)%Z
      with (Z.of_nat (length (k :: kept') + length marked) - 1)%Z
      by (rewrite length_app; lia).
    rewrite scanBack_marked_tail; auto; try discriminate;
      try (cbn [app length]; rewrite ?length_app; lia).
    cbn [bindR]. unfold sliceTo.
    replace (Z.of_nat (length (k :: kept')) - 1 + 1)%Z
      with (Z.of_nat (length (k :: kept'))) by lia.
    rewrite Nat2Z.id, take_app_length.
    destruct (Z.leb_spec 0 (Z.of_nat (length (k :: kept')))); [|lia].
    destruct (Z.leb_spec (Z.of_nat (length (k :: kept')))
                         (Z.of_nat (length ((k :: kept') ++ marked))));
      [reflexivity|].
    rewrite length_app in *. lia.
Qed.

End Trim.

(** ** What the merge leaves: one live row per day, in order *)

Section MergedDays.

Lemma wellKeyed_keyOk (r : list string) :
  wellKeyed r <-> r <> [] /\ keyOk (key r).
Proof. apply wellKeyed_key. Qed.

Lemma Forall_wellKeyed_keys (l : list (list string)) :
  Forall wellKeyed l <->
  Forall (fun r => r <> []) l /\ Forall keyOk (map key l).
Proof.
  induction l as [|r l IH]; simpl.
  - split; [intros _; split; constructor | intros _; constructor].
  - rewrite !Forall_cons, IH, wellKeyed_keyOk. tauto.
Qed.

Lemma map_key_filter (l : list (list string)) :
  map key (filter unmarked l) = filter liveKey (map key l).
Proof.
  induction l as [|r l IH]; [reflexivity|]. cbn [map].
  rewrite !filter_cons. destruct (isMarked r) eqn:E.
  - rewrite decide_False by (unfold unmarked; congruence).
    apply isMarked_true in E.
    now rewrite decide_False by (unfold liveKey; congruence).
  - rewrite decide_True by exact E. apply isMarked_false in E.
    rewrite decide_True by exact E. cbn [map]. now f_equal.
Qed.

Lemma StronglySorted_map_inv {A B : Type} (f : A -> B) (R : B -> B -> Prop)
      (l : list A) :
  StronglySorted R (map f l) -> StronglySorted (fun a b => R (f a) (f b)) l.
Proof.
  induction l as [|a l IH]; simpl; intros H; [constructor|].
  apply StronglySorted_inv in H as [H1 H2]. constructor; [now apply IH|].
  apply Forall_forall. intros b Hb. rewrite Forall_forall in H2. apply H2.
  apply list_elem_of_In. apply in_map. now apply list_elem_of_In.
Qed.

Lemma StronglySorted_map {A B : Type} (f : A -> B) (R : B -> B -> Prop)
      (l : list A) :
  StronglySorted (fun a b => R (f a) (f b)) l -> StronglySorted R (map f l).
Proof.
  induction 1 as [|a l _ IH Ha]; simpl; constructor; [exact IH|].
  apply Forall_forall. intros b Hb. apply list_elem_of_In in Hb.
  apply in_map_iff in Hb as (x & <- & Hx). rewrite Forall_forall in Ha.
  apply Ha. now apply list_elem_of_In.
Qed.

Lemma eqb_marker_keyOk (k : string) :
  keyOk k -> String.eqb k discardMarker = false ->
  isCanonicalTimestamp k = true.
Proof. intros [->|H] E; [discriminate E|exact H]. Qed.

Lemma markRepeats_keyOk (keys : list string) (date : string) :
  Forall keyOk keys -> Forall keyOk (markRepeats date keys).
Proof.
  revert date. induction keys as [|k keys IH]; intros date H; [constructor|].
  cbn [markRepeats]. destruct (String.eqb k discardMarker); [exact H|].
  apply Forall_cons in H as [Hk H].
  destruct (String.eqb (dayOf k) date); constructor; auto. now left.
Qed.

Lemma mergedKeys_keyOk (keys : list string) :
  Forall keyOk keys -> Forall keyOk (mergedKeys keys).
Proof.
  destruct keys as [|k keys]; [constructor|]. cbn [mergedKeys]. intros H.
  destruct (String.eqb k discardMarker); [exact H|].
  apply Forall_cons in H as [Hk H]. constructor; [exact Hk|].
  now apply markRepeats_keyOk.
Qed.

Lemma markRepeats_length (keys : list string) (date : string) :
  length (markRepeats date keys) = length keys.
Proof.
  revert date. induction keys as [|k keys IH]; intros date; [reflexivity|].
  cbn [markRepeats]. destruct (String.eqb k discardMarker); [reflexivity|].
  destruct (String.eqb (dayOf k) date); simpl; now rewrite IH.
Qed.

(** After the marker only markers follow. *)
Lemma keys_after_marker (keys : list string) :
  Forall (GoString.le discardMarker) keys -> Forall keyOk keys ->
  filter liveKey keys = [].
Proof.
  intros Hle Hok. apply filter_none.
  rewrite Forall_forall in Hle, Hok |- *. intros k Hk Hlive.
  destruct (Hok k Hk) as [->|Hc]; [now apply Hlive|].
  apply canonical_lt_marker in Hc. pose proof (Hle k Hk) as Hm.
  apply gostr_not_lt_le in Hm. contradiction.
Qed.

Lemma markRepeats_days (keys : list string) :
  forall date : string,
    StronglySorted GoString.le keys -> Forall keyOk keys ->
    Forall (fun k => liveKey k -> GoString.le date (dayOf k)) keys ->
    let live := filter liveKey (markRepeats date keys) in
    StronglySorted (fun a b => GoString.lt (dayOf a) (dayOf b)) live
    /\ Forall (fun k => GoString.lt date (dayOf k)) live.
Proof.
  induction keys as [|k keys IH]; intros date HS Hok Hd; cbn zeta.
  - split; constructor.
  - apply StronglySorted_inv in HS as [HS Hk].
    apply Forall_cons in Hok as [Hkok Hok].
    apply Forall_cons in Hd as [Hkd Hd].
    cbn [markRepeats]. destruct (String.eqb k discardMarker) eqn:Em.
    + apply String.eqb_eq in Em. subst k.
      rewrite filter_cons_False by (intros H; now apply H).
      rewrite (keys_after_marker keys Hk Hok). split; constructor.
    + assert (liveKey k) as Hlive by (now apply String.eqb_neq).
      destruct (String.eqb (dayOf k) date) eqn:Ed.
      * rewrite filter_cons_False by (intros H; now apply H).
        now apply IH.
      * rewrite filter_cons_True by exact Hlive.
        destruct (IH (dayOf k)) as [IH1 IH2]; auto.
        { apply Forall_forall. intros k' Hk' _.
          rewrite Forall_forall in Hk. apply substring_le. now apply Hk. }
        assert (GoString.lt date (dayOf k)) as Hlt.
        { specialize (Hkd Hlive).
          apply gostr_le_cases in Hkd as [H|H]; [exact H|].
          apply String.eqb_neq in Ed. congruence. }
        split; constructor; auto.
        eapply Forall_impl; [exact IH2|]. intros k' Hk'.
        eapply gostr_lt_trans; eauto.
Qed.

(** In sorted order the first fields that stay live have strictly
    increasing days. *)
Lemma mergedKeys_days (keys : list string) :
  StronglySorted GoString.le keys -> Forall keyOk keys ->
  StronglySorted (fun a b => GoString.lt (dayOf a) (dayOf b))
                 (filter liveKey (mergedKeys keys)).
Proof.
  intros HS Hok. destruct keys as [|k keys]; [constructor|].
  apply StronglySorted_inv in HS as [HS Hk].
  apply Forall_cons in Hok as [Hkok Hok].
  cbn [mergedKeys]. destruct (String.eqb k discardMarker) eqn:Em.
  - apply String.eqb_eq in Em. subst k.
    rewrite filter_cons_False by (intros H; now apply H).
    rewrite (keys_after_marker keys Hk Hok). constructor.
  - rewrite filter_cons_True by (now apply String.eqb_neq).
    destruct (markRepeats_days keys (dayOf k)) as [H1 H2]; auto.
    { apply Forall_forall. intros k' Hk' _.
      rewrite Forall_forall in Hk. apply substring_le. now apply Hk. }
    constructor; auto.
Qed.

Lemma dayBefore_notAfter (a b : list string) :
  dayBefore a b -> notAfter a b /\ key a <> key b.
Proof.
  unfold dayBefore, notAfter. intros H. split.
  - apply gostr_not_lt_le. intros Hba. apply gostr_lt_le_incl in Hba.
    apply (substring_le 10) in Hba. apply gostr_not_lt_le in Hba. contradiction.
  - intros E. unfold dayOf in H. rewrite E in H. exact (gostr_lt_irrefl _ H).
Qed.

Lemma StronglySorted_dayBefore (l : list (list string)) :
  StronglySorted dayBefore l ->
  StronglySorted notAfter l /\ NoDup (map key l).
Proof.
  induction 1 as [|a l _ [IH1 IH2] Ha]; [split; constructor|].
  split.
  - constructor; [exact IH1|]. eapply Forall_impl; [exact Ha|].
    intros b Hb. now apply dayBefore_notAfter.
  - simpl. apply NoDup_cons. split; [|exact IH2].
    intros Hin. apply list_elem_of_In, in_map_iff in Hin as (b & Hk & Hb).
    rewrite Forall_forall in Ha. apply list_elem_of_In in Hb.
    apply Ha, dayBefore_notAfter in Hb as [_ Hne]. congruence.
Qed.

End MergedDays.

(** ** The whole of [sortInput] *)

Section Pipeline.

Lemma StronglySorted_filter {A : Type} (R : A -> A -> Prop) (P : A -> Prop)
      `{forall x, Decision (P x)} (l : list A) :
  StronglySorted R l -> StronglySorted R (filter P l).
Proof.
  induction 1 as [|a l _ IH Ha]; [constructor|].
  rewrite filter_cons. destruct (decide (P a)); [|exact IH].
  constructor; [exact IH|].
  apply Forall_forall. intros b Hb. apply list_elem_of_filter in Hb as [_ Hb].
  rewrite Forall_forall in Ha. now apply Ha.
Qed.

(** The live rows the merge leaves are already in their final order. *)
Lemma combined_live_sorted (sorted combined : list (list string)) :
  StronglySorted notAfter sorted -> Forall wellKeyed sorted ->
  map key combined = mergedKeys (map key sorted) ->
  StronglySorted dayBefore (filter unmarked combined).
Proof.
  intros HS Hw Hkeys.
  apply (StronglySorted_map_inv key
           (fun a b => GoString.lt (dayOf a) (dayOf b))).
  rewrite map_key_filter, Hkeys. apply mergedKeys_days.
  - now apply (StronglySorted_map key GoString.le).
  - now apply Forall_wellKeyed_keys in Hw.
Qed.

Lemma combined_wellKeyed (sorted combined : list (list string)) :
  Forall wellKeyed sorted -> Forall (fun r => r <> []) combined ->
  map key combined = mergedKeys (map key sorted) ->
  Forall wellKeyed combined.
Proof.
  intros Hw Hn Hkeys. apply Forall_wellKeyed_keys. split; [exact Hn|].
  rewrite Hkeys. apply mergedKeys_keyOk. now apply Forall_wellKeyed_keys in Hw.
Qed.

(** Any second sort keeps the live rows as the merge left them. *)
Lemma resorted_live (sorted combined resorted : list (list string)) :
  StronglySorted notAfter sorted -> Forall wellKeyed sorted ->
  map key combined = mergedKeys (map key sorted) ->
  combined ≡ₚ resorted -> StronglySorted notAfter resorted ->
  filter unmarked resorted = filter unmarked combined.
Proof.
  intros HS Hw Hkeys HP HR.
  pose proof (combined_live_sorted _ _ HS Hw Hkeys) as Hlive.
  apply StronglySorted_dayBefore in Hlive as [Hl1 Hl2].
  symmetry. apply sorted_unique_keys; auto.
  - now rewrite HP.
  - now apply StronglySorted_filter.
Qed.

(** Every run of [sortInput] on the record set, step by step. *)
Lemma collate_inv (input : list (list string)) (out : result Output) :
  collate input out ->
  exists sorted combined m resorted,
    convertBPDateTimes input ≡ₚ sorted
    /\ StronglySorted notAfter sorted /\ Forall wellKeyed sorted
    /\ combineRecordsForSameDay sorted = Ok (combined, m)
    /\ map key combined = mergedKeys (map key sorted)
    /\ m = returnedMax (map key sorted)
    /\ Forall wellKeyed combined
    /\ combined ≡ₚ resorted /\ StronglySorted notAfter resorted
    /\ out = Ok (mkOutput (buildHeaderRecord m)
                   (match filter unmarked combined with
                    | [] => take 1 resorted
                    | kept => kept
                    end)).
Proof.
  intros (r1 & Hsort & Hrest).
  apply sortSlice_wellKeyed in Hsort
    as (sorted & -> & HP & HS & Hw); [|apply convertBPDateTimes_wellKeyed].
  cbn [bindR] in Hrest.
  destruct (combineRecordsForSameDay_keys sorted Hw)
    as (combined & m & Hrun & Hkeys & Hn & Hm).
  rewrite Hrun in Hrest. destruct Hrest as (r2 & (r3 & Hsort2 & ->) & ->).
  pose proof (combined_wellKeyed _ _ Hw Hn Hkeys) as Hcw.
  apply sortSlice_wellKeyed in Hsort2
    as (resorted & -> & HP2 & HS2 & Hw2); [|exact Hcw].
  exists sorted, combined, m, resorted.
  repeat (split; [assumption|]).
  cbn [bindR]. rewrite (trimMarked_sorted _ HS2 Hw2). cbn [bindR].
  now rewrite (resorted_live sorted combined resorted).
Qed.

(** [sortInput] has an outcome on every record set, the one computed with
    the stable sort among them. *)
Lemma collate_stable (input : list (list string)) :
  collate input (collateStable input).
Proof.
  pose proof (convertBPDateTimes_wellKeyed input) as Hw.
  assert (Forall (fun r => r <> []) (convertBPDateTimes input)) as Hn
    by (eapply Forall_impl; [exact Hw|apply wellKeyed_nonempty]).
  exists (Ok (merge_sort notAfter (convertBPDateTimes input))).
  split; [now apply sortSlice_merge_sort|].
  cbn [bindR]. unfold collateStable.
  set (sorted := merge_sort notAfter (convertBPDateTimes input)).
  assert (Forall wellKeyed sorted) as Hws.
  { eapply wellKeyed_perm; [|exact Hw].
    symmetry. apply merge_sort_Permutation. }
  destruct (combineRecordsForSameDay_keys sorted Hws)
    as (combined & m & Hrun & Hkeys & Hnc & Hm).
  rewrite Hrun. cbn [bindR].
  exists (bindR (Ok (merge_sort notAfter combined)) trimMarked).
  split; [|reflexivity].
  exists (Ok (merge_sort notAfter combined)). split; [|reflexivity].
  now apply sortSlice_merge_sort.
Qed.

End Pipeline.

(** ** Uniqueness of the outcome when the first fields are distinct *)

Section Determinism.

Lemma Permutation_short {A : Type} (l l' : list A) :
  (length l <= 1)%nat -> l ≡ₚ l' -> l' = l.
Proof.
  destruct l as [|x [|y l]]; simpl; intros Hl HP; try lia.
  - now apply Permutation_nil.
  - now apply Permutation_singleton_l in HP.
Qed.

(** With distinct first fields, a merge that leaves no live row has worked
    on one row at most. *)
Lemma all_marked_short (sorted combined : list (list string)) :
  NoDup (map key sorted) ->
  StronglySorted notAfter sorted -> Forall wellKeyed sorted ->
  map key combined = mergedKeys (map key sorted) ->
  filter unmarked combined = [] ->
  (length combined <= 1)%nat.
Proof.
  intros Hnd HS Hw Hkeys Hnone.
  assert (length combined = length (mergedKeys (map key sorted))) as Hlen
    by (rewrite <- Hkeys; now rewrite length_map).
  pose proof (f_equal (map key) Hnone) as Hk.
  rewrite map_key_filter, Hkeys in Hk. cbn [map] in Hk.
  destruct sorted as [|r [|r' sorted]]; cbn [map mergedKeys] in *;
    [simpl in Hlen; lia| |].
  - destruct (String.eqb (key r) discardMarker); simpl in Hlen; lia.
  - exfalso. destruct (String.eqb (key r) discardMarker) eqn:Em.
    + apply String.eqb_eq in Em.
      apply StronglySorted_inv in HS as [_ HS].
      apply Forall_cons in HS as [HS _].
      apply Forall_cons in Hw as [_ Hw]. apply Forall_cons in Hw as [Hw _].
      assert (isMarked r' = true) as Hm'.
      { apply (wellKeyed_after_marked r r'); auto. now apply isMarked_true. }
      apply isMarked_true in Hm'. apply NoDup_cons in Hnd as [Hnd _].
      apply Hnd. rewrite Em, <- Hm'. left.
    + rewrite filter_cons_True in Hk by (now apply String.eqb_neq).
      discriminate Hk.
Qed.

(** With distinct first fields the rows the trim keeps do not depend on
    the order the second sort chose. *)
Lemma trimmed_unique (sorted combined r1 r2 : list (list string)) :
  NoDup (map key sorted) ->
  StronglySorted notAfter sorted -> Forall wellKeyed sorted ->
  map key combined = mergedKeys (map key sorted) ->
  combined ≡ₚ r1 -> combined ≡ₚ r2 ->
  match filter unmarked combined with [] => take 1 r1 | kept => kept end
  = match filter unmarked combined with [] => take 1 r2 | kept => kept end.
Proof.
  intros Hnd HS Hw Hk HP1 HP2.
  destruct (filter unmarked combined) eqn:Hlive; [|reflexivity].
  pose proof (all_marked_short sorted combined Hnd HS Hw Hk Hlive) as Hshort.
  now rewrite (Permutation_short _ _ Hshort HP1),
              (Permutation_short _ _ Hshort HP2).
Qed.

Lemma NoDup_keys_perm (l1 l2 : list (list string)) :
  l1 ≡ₚ l2 -> NoDup (map key l1) -> NoDup (map key l2).
Proof.
  intros HP Hnd.
  assert (map key l1 ≡ₚ map key l2) as HPk by now apply Permutation_map.
  now rewrite <- HPk.
Qed.

(** With distinct first fields the outcome is the one computed with the
    stable sort. *)
Lemma collate_evaluates (input : list (list string)) (out : result Output) :
  NoDup (map key (convertBPDateTimes input)) ->
  collate input out -> out = collateStable input.
Proof.
  intros Hnd H1. pose proof (collate_stable input) as H2.
  apply collate_inv in H1
    as (s1 & c1 & m1 & r1 & HP1 & HS1 & Hw1 & Hrun1 & Hk1 & _ & _
        & HPr1 & _ & ->).
  apply collate_inv in H2
    as (s2 & c2 & m2 & r2 & HP2 & HS2 & Hw2 & Hrun2 & Hk2 & _ & _
        & HPr2 & _ & ->).
  pose proof (NoDup_keys_perm _ _ HP1 Hnd) as Hnd1.
  assert (s1 = s2) as <-
    by (apply sorted_unique_keys; auto; now rewrite <- HP1, <- HP2).
  rewrite Hrun1 in Hrun2. injection Hrun2 as <- <-.
  do 2 f_equal. now apply (trimmed_unique s1).
Qed.

End Determinism.

(** * The claims *)

(** C7.  The timestamp normalizer neither adds nor removes rows, and in
    every row it leaves the fields after field 0 as they were, whether the
    timestamp parses or not; a row without fields becomes a row whose only
    field is the discard marker. *)
Theorem C7_normalizer_frame (recs : list (list string)) :
  length (convertBPDateTimes recs) = length recs
  /\ forall (i : nat) (r : list string),
       recs !! i = Some r ->
       exists r', convertBPDateTimes recs !! i = Some r'
                  /\ tl r' = tl r
                  /\ length r' = Nat.max 1 (length r)
                  /\ (r = [] -> r' = [discardMarker])
                  /\ (forall first rest,
                        r = first :: rest -> GoTime.Parse first = None ->
                        r' = discardMarker :: rest).
Proof.
  rewrite convertBPDateTimes_map. split; [apply length_map|].
  intros i r Hi. exists (convertRecord r). split.
  - change (map convertRecord recs) with (convertRecord <$> recs).
    now rewrite list_lookup_fmap, Hi.
  - destruct r as [|first rest]; cbn [convertRecord tl app].
    + repeat split; auto. intros ? ? [=].
    + destruct (GoTime.Parse first) eqn:E; repeat split; try discriminate.
      * intros f r' [= <- <-] HN. congruence.
      * now intros f r' [= <- <-] _.
Qed.

Lemma C7_normalizer_frame_witness :
  exists r',
    convertBPDateTimes [["not a date"; "120"; "80"; "60"; "n"]; []] !! 1%nat
    = Some r' /\ r' = [discardMarker].
Proof.
  destruct (proj2 (C7_normalizer_frame
                     [["not a date"; "120"; "80"; "60"; "n"]; []])
                  1%nat [] eq_refl) as (r' & Hr & _ & _ & He & _).
  exists r'. split; [exact Hr|]. now apply He.
Defined.

(** C8.  After the normalization every row has a first field, and that
    field is the discard marker or a normalized timestamp of nineteen
    bytes.  Hence no index or slice expression of the pipeline is out of
    range: [sortInput] has an outcome on every record set, and none of its
    outcomes is a panic, whatever order the two sorts choose. *)
Theorem C8_no_out_of_range (input : list (list string)) :
  Forall (fun r => exists first rest,
              r = first :: rest
              /\ (first = discardMarker
                  \/ (isCanonicalTimestamp first = true
                      /\ String.length first = 19%nat)))
         (convertBPDateTimes input)
  /\ (exists out, collate input out)
  /\ forall out, collate input out -> exists o, out = Ok o.
Proof.
  split; [|split].
  - eapply Forall_impl; [apply convertBPDateTimes_wellKeyed|].
    intros [|first rest] Hr; [destruct Hr|]. exists first, rest.
    split; [reflexivity|]. destruct Hr as [->|Hc]; [now left|right].
    split; [exact Hc|]. now apply canonical_shape in Hc.
  - exists (collateStable input). apply collate_stable.
  - intros out H. apply collate_inv in H
      as (? & ? & ? & ? & _ & _ & _ & _ & _ & _ & _ & _ & _ & ->).
    eexists. reflexivity.
Qed.

Lemma C8_no_out_of_range_witness :
  exists o, collateStable sampleReadings = Ok o.
Proof.
  exact (proj2 (proj2 (C8_no_out_of_range sampleReadings))
               (collateStable sampleReadings)
               (collate_stable sampleReadings)).
Defined.

(** C6.  The discard marker is greater, as a Go string, than every
    string of the canonical timestamp shape, in particular than every
    timestamp the normalizer writes; so the ascending sort on field 0
    leaves the record set as the rows that are not marked followed by the
    rows that are. *)
Theorem C6_marker_sorts_last :
  (forall t, isCanonicalTimestamp t = true -> GoString.lt t discardMarker)
  /\ (forall value t, GoTime.Parse value = Some t ->
        GoString.lt (GoTime.Format t) discardMarker)
  /\ forall input sorted,
       sortSlice (convertBPDateTimes input) (Ok sorted) ->
       exists kept marked,
         sorted = kept ++ marked
         /\ Forall (fun r => isMarked r = false) kept
         /\ Forall (fun r => isMarked r = true) marked.
Proof.
  split; [exact canonical_lt_marker|split].
  - intros value t H. eapply canonical_lt_marker, Parse_Format_canonical; eauto.
  - intros input sorted H.
    apply sortSlice_wellKeyed in H
      as (s & [= <-] & _ & HS & Hw); [|apply convertBPDateTimes_wellKeyed].
    exists (filter unmarked sorted), (filter (fun r => ~ unmarked r) sorted).
    split; [now apply sorted_split_marked|]. split.
    + apply Forall_forall. intros r Hr. now apply list_elem_of_filter in Hr.
    + apply Forall_forall. intros r Hr.
      apply list_elem_of_filter in Hr as [Hr _]. unfold unmarked in Hr.
      now destruct (isMarked r).
Qed.

Lemma C6_marker_sorts_last_witness :
  GoString.lt "2020-01-02 08:00:00" discardMarker
  /\ exists kept marked,
       merge_sort notAfter (convertBPDateTimes sampleReadings) = kept ++ marked
       /\ Forall (fun r => isMarked r = false) kept
       /\ Forall (fun r => isMarked r = true) marked.
Proof.
  split.
  - apply (proj1 C6_marker_sorts_last). reflexivity.
  - apply (proj2 (proj2 C6_marker_sorts_last) sampleReadings).
    apply sortSlice_merge_sort.
    eapply Forall_impl; [apply convertBPDateTimes_wellKeyed|].
    apply wellKeyed_nonempty.
Defined.

(** C5.  On a record set that is not empty and in which every row is
    discard-marked, the discard pass keeps exactly one row, itself marked:
    the backward scan ends at index 0, which it does not test, and the set
    is cut after that index. *)
Theorem C5_all_marked_keeps_one (recs : list (list string))
        (out : result (list (list string))) :
  recs <> [] ->
  Forall (fun r => isMarked r = true) recs ->
  discardMarkedRecords recs out ->
  exists sorted r,
    sortSlice recs (Ok sorted)
    /\ scanBack (length sorted) sorted (Z.of_nat (length sorted) - 1) = Ok 0%Z
    /\ out = Ok [r] /\ r ∈ recs /\ isMarked r = true.
Proof.
  intros Hne Hall (sorted & Hsort & ->).
  assert (Forall wellKeyed recs) as Hw.
  { eapply Forall_impl; [exact Hall|]. intros r Hr. apply wellKeyed_key.
    apply isMarked_true in Hr. split; [|now left].
    intros ->. discriminate Hr. }
  pose proof Hsort as Hsort'.
  apply sortSlice_wellKeyed in Hsort' as (s & -> & HP & HS & Hws); [|exact Hw].
  assert (Forall (fun r => ~ unmarked r) s) as Hms.
  { rewrite <- HP. eapply Forall_impl; [exact Hall|].
    intros r Hr. unfold unmarked. congruence. }
  assert (Forall (fun r => r <> []) s) as Hns
    by (eapply Forall_impl; [exact Hws|apply wellKeyed_nonempty]).
  destruct s as [|r s]; [apply Permutation_nil_r in HP; contradiction|].
  exists (r :: s), r. split; [exact Hsort|]. split; [|split; [|split]].
  - replace (Z.of_nat (length (r :: s)) - 1)%Z with (Z.of_nat (length s))
      by (cbn [length]; lia).
    apply scanBack_all_marked; auto; cbn [length]; lia.
  - cbn [bindR]. rewrite (trimMarked_sorted _ HS Hws).
    now rewrite (filter_none _ _ Hms).
  - rewrite HP. left.
  - apply Forall_cons in Hms as [Hm _]. unfold unmarked in Hm.
    now destruct (isMarked r).
Qed.

Lemma C5_all_marked_keeps_one_witness :
  exists sorted r,
    sortSlice [["ZZZZ"; "a"]; ["ZZZZ"; "b"]] (Ok sorted)
    /\ scanBack (length sorted) sorted (Z.of_nat (length sorted) - 1) = Ok 0%Z
    /\ Ok (take 1 (merge_sort notAfter [["ZZZZ"; "a"]; ["ZZZZ"; "b"]])) = Ok [r]
    /\ r ∈ [["ZZZZ"; "a"]; ["ZZZZ"; "b"]] /\ isMarked r = true.
Proof.
  apply (C5_all_marked_keeps_one [["ZZZZ"; "a"]; ["ZZZZ"; "b"]]).
  - discriminate.
  - repeat constructor.
  - exists (Ok (merge_sort notAfter [["ZZZZ"; "a"]; ["ZZZZ"; "b"]])).
    split; [|reflexivity].
    apply sortSlice_merge_sort. repeat constructor; discriminate.
Defined.

Section StrictDays.

Lemma dayBefore_le_ne (l : list (list string)) :
  StronglySorted dayBefore l ->
  StronglySorted (fun a b => GoString.le (dayOf (key a)) (dayOf (key b))) l
  /\ NoDup (map (fun r => dayOf (key r)) l).
Proof.
  induction 1 as [|a l _ [IH1 IH2] Ha]; [split; constructor|]. split.
  - constructor; [exact IH1|]. eapply Forall_impl; [exact Ha|].
    intros b Hb. now apply gostr_lt_le_incl.
  - cbn [map]. apply NoDup_cons. split; [|exact IH2]. intros Hin.
    apply list_elem_of_In, in_map_iff in Hin as (b & Hd & Hb).
    rewrite Forall_forall in Ha. apply list_elem_of_In in Hb.
    specialize (Ha b Hb). unfold dayBefore in Ha. rewrite Hd in Ha.
    exact (gostr_lt_irrefl _ Ha).
Qed.

End StrictDays.

(** C3.  In every outcome of the conversion the body rows have strictly
    increasing day prefixes (the first ten bytes of field 0) from one row
    to every later row: the rows are in non-decreasing date order and no
    two of them share a day. *)
Theorem C3_output_days_increasing (input : list (list string))
        (out : result Output) :
  collate input out ->
  exists o,
    out = Ok o
    /\ StronglySorted dayBefore (body o)
    /\ StronglySorted
         (fun a b => GoString.le (dayOf (key a)) (dayOf (key b))) (body o)
    /\ NoDup (map (fun r => dayOf (key r)) (body o)).
Proof.
  intros H. apply collate_inv in H
    as (s & c & m & r & _ & HS & Hw & _ & Hk & _ & _ & _ & _ & ->).
  eexists. split; [reflexivity|]. cbn [body].
  assert (StronglySorted dayBefore
            (match filter unmarked c with [] => take 1 r | kept => kept end))
    as Hsorted.
  { pose proof (combined_live_sorted s c HS Hw Hk) as Hlive.
    destruct (filter unmarked c); [|exact Hlive].
    destruct r as [|x r]; cbn; repeat constructor. }
  split; [exact Hsorted|]. now apply dayBefore_le_ne.
Qed.

Lemma C3_output_days_increasing_witness :
  exists o,
    collateStable sampleReadings = Ok o
    /\ StronglySorted dayBefore (body o)
    /\ StronglySorted
         (fun a b => GoString.le (dayOf (key a)) (dayOf (key b))) (body o)
    /\ NoDup (map (fun r => dayOf (key r)) (body o)).
Proof.
  exact (C3_output_days_increasing sampleReadings
           (collateStable sampleReadings) (collate_stable sampleReadings)).
Defined.

(** C10.  When the normalized first fields of the rows are pairwise
    distinct, the outcome of the conversion (the header row and the body
    rows, with the order of the fields in every merged row) does not depend
    on the order of the input rows, nor on the order the sorts choose. *)
Theorem C10_permutation_invariance (input1 input2 : list (list string))
        (out1 out2 : result Output) :
  input1 ≡ₚ input2 ->
  NoDup (map key (convertBPDateTimes input1)) ->
  collate input1 out1 -> collate input2 out2 -> out1 = out2.
Proof.
  intros HP Hnd H1 H2.
  apply collate_inv in H1
    as (s1 & c1 & m1 & r1 & HP1 & HS1 & Hw1 & Hrun1 & Hk1 & _ & _
        & HPr1 & _ & ->).
  apply collate_inv in H2
    as (s2 & c2 & m2 & r2 & HP2 & HS2 & Hw2 & Hrun2 & Hk2 & _ & _
        & HPr2 & _ & ->).
  pose proof (NoDup_keys_perm _ _ HP1 Hnd) as Hnd1.
  assert (s1 = s2) as <-.
  { apply sorted_unique_keys; auto.
    rewrite <- HP1, <- HP2, !convertBPDateTimes_map.
    now apply Permutation_map. }
  rewrite Hrun1 in Hrun2. injection Hrun2 as <- <-.
  do 2 f_equal. now apply (trimmed_unique s1).
Qed.

Lemma C10_permutation_invariance_witness :
  collateStable sampleReadings = collateStable (rev sampleReadings).
Proof.
  apply (C10_permutation_invariance sampleReadings (rev sampleReadings)).
  - apply Permutation_rev.
  - apply (bool_decide_unpack _). vm_compute. exact I.
  - apply collate_stable.
  - apply collate_stable.
Defined.

(** ** The integer the merge returns *)

Section ReturnedMax.

Local Open Scope Z_scope.

Lemma countDay_cons (d x : string) (days : list string) :
  countDay d (x :: days)
  = (if decide (x = d) then 1 else 0) + countDay d days.
Proof.
  unfold countDay. rewrite filter_cons.
  destruct (decide (x = d)); cbn [length]; lia.
Qed.

Lemma countDay_nonneg (d : string) (days : list string) : 0 <= countDay d days.
Proof. unfold countDay. lia. Qed.

Lemma countDay_absent (d : string) (days : list string) :
  d ∉ days -> countDay d days = 0.
Proof.
  intros H. unfold countDay. rewrite filter_none; [reflexivity|].
  apply Forall_forall. intros x Hx ->. contradiction.
Qed.

Lemma last_cons_elem (d : string) (days : list string) :
  exists x, last (d :: days) = Some x /\ x ∈ d :: days.
Proof.
  revert d. induction days as [|e days IH]; intros d.
  - exists d. split; [reflexivity|left].
  - destruct (IH e) as (x & Hx & Hin). exists x. split; [exact Hx|].
    now right.
Qed.

(** The running maximum over a list of days in non-decreasing order, when
    the loop accumulates for [date] and has folded [soFar] readings into
    it: it bounds the count of every day but the last, and it is the
    maximum it started from or one of those counts. *)
Lemma runMaxDays_char (days : list string) :
  forall (date : string) (soFar mx : Z),
    StronglySorted GoString.le (date :: days) ->
    let cnt x := (if decide (date = x) then soFar else 0) + countDay x days in
    let r := runMaxDays date soFar mx days in
    mx <= r
    /\ (forall x, x ∈ date :: days -> Some x <> last (date :: days) ->
                  cnt x <= r)
    /\ (r = mx \/ exists x, x ∈ date :: days
                            /\ Some x <> last (date :: days) /\ cnt x = r).
Proof.
  induction days as [|d days IH]; intros date soFar mx HS; cbn zeta.
  - cbn [runMaxDays last]. split; [lia|]. split; [|now left].
    intros x Hx Hne. apply list_elem_of_singleton in Hx. congruence.
  - cbn [runMaxDays].
    apply StronglySorted_inv in HS as [HS Hd].
    pose proof HS as HS'. apply StronglySorted_inv in HS' as [HS' Hd'].
    apply Forall_cons in Hd as [Hdd Hd].
    change (last (date :: d :: days)) with (last (d :: days)).
    destruct (String.eqb d date) eqn:E.
    + apply String.eqb_eq in E. subst d.
      destruct (IH date (soFar + 1) mx) as (Ha & Hb & Hc).
      { constructor; auto. }
      cbn zeta in Hb, Hc.
      assert (forall x, (if decide (date = x) then soFar else 0)
                        + countDay x (date :: days)
                        = (if decide (date = x) then soFar + 1 else 0)
                          + countDay x days) as Hcnt.
      { intros x. rewrite countDay_cons. destruct (decide (date = x)); lia. }
      split; [exact Ha|]. split.
      * intros x Hx Hne. rewrite Hcnt. apply Hb; [|exact Hne].
        apply elem_of_cons in Hx as [->|Hx]; [left|exact Hx].
      * destruct Hc as [Hc|(x & Hx & Hne & Hc)]; [now left|right].
        exists x. split; [now right|]. split; [exact Hne|]. now rewrite Hcnt.
    + apply String.eqb_neq in E.
      assert (GoString.lt date d) as Hlt.
      { apply gostr_le_cases in Hdd as [H|H]; [exact H|congruence]. }
      assert (forall x, x ∈ d :: days -> GoString.lt date x) as Hall.
      { intros x Hx. apply elem_of_cons in Hx as [->|Hx]; [exact Hlt|].
        rewrite Forall_forall in Hd'. eapply gostr_lt_le_trans; eauto. }
      destruct (IH d 1 (Z.max mx soFar) HS) as (Ha & Hb & Hc).
      cbn zeta in Hb, Hc.
      assert (forall x, x ∈ d :: days ->
                (if decide (date = x) then soFar else 0)
                + countDay x (d :: days)
                = (if decide (d = x) then 1 else 0) + countDay x days) as Hcnt.
      { intros x Hx. rewrite countDay_cons.
        destruct (decide (date = x)) as [<-|_]; [|reflexivity].
        exfalso. exact (gostr_lt_irrefl _ (Hall _ Hx)). }
      assert ((if decide (date = date) then soFar else 0)
              + countDay date (d :: days) = soFar) as Hdate.
      { rewrite decide_True by reflexivity. rewrite countDay_absent; [lia|].
        intros Hin. exact (gostr_lt_irrefl _ (Hall _ Hin)). }
      assert (Some date <> last (d :: days)) as Hfinal.
      { destruct (last_cons_elem d days) as (x & Hx & Hin). rewrite Hx.
        intros [= <-]. exact (gostr_lt_irrefl _ (Hall _ Hin)). }
      split; [lia|]. split.
      * intros x Hx Hne. apply elem_of_cons in Hx as [->|Hx].
        -- rewrite Hdate. lia.
        -- rewrite Hcnt by exact Hx. now apply Hb.
      * destruct Hc as [Hc|(x & Hx & Hne & Hc)].
        -- destruct (Z.max_spec mx soFar) as [[_ Hm]|[_ Hm]].
           ++ right. exists date. split; [left|]. split; [exact Hfinal|].
              rewrite Hdate. lia.
           ++ left. lia.
        -- right. exists x. split; [now right|]. split; [exact Hne|].
           now rewrite Hcnt.
Qed.

End ReturnedMax.

Section EarlierDays.

Local Open Scope Z_scope.

Lemma foldr_max_char (l : list Z) (floor m : Z) :
  floor <= m -> Forall (fun x => x <= m) l -> (m = floor \/ m ∈ l) ->
  foldr Z.max floor l = m.
Proof.
  intros Hf Hall Hm.
  assert (foldr Z.max floor l <= m) as Hle.
  { clear Hm. induction Hall as [|x l Hx _ IH]; cbn [foldr]; lia. }
  assert (m <= foldr Z.max floor l) as Hge.
  { destruct Hm as [->|Hin].
    - clear. induction l as [|x l IH]; cbn [foldr]; lia.
    - clear -Hin. induction Hin as [x l|x y l _ IH]; cbn [foldr]; lia. }
  lia.
Qed.

Lemma foldr_max_lt (l : list Z) (floor b : Z) :
  floor < b -> Forall (fun x => x < b) l -> foldr Z.max floor l < b.
Proof. intros Hf Hall. induction Hall; cbn [foldr]; lia. Qed.

Lemma liveDays_marked (r : list string) (recs : list (list string)) :
  isMarked r = true -> Forall (notAfter r) recs -> Forall wellKeyed recs ->
  liveDays (r :: recs) = [].
Proof.
  intros Hm Hle Hw. unfold liveDays. rewrite filter_none; [reflexivity|].
  constructor; [unfold unmarked; congruence|].
  rewrite Forall_forall in Hle, Hw |- *. intros b Hb. unfold unmarked.
  rewrite (wellKeyed_after_marked r b); auto.
Qed.

Lemma liveDays_live (r : list string) (recs : list (list string)) :
  isMarked r = false ->
  liveDays (r :: recs) = dayOf (key r) :: liveDays recs.
Proof.
  intros Hm. unfold liveDays. now rewrite filter_cons_True by exact Hm.
Qed.

Lemma liveDays_sorted (recs : list (list string)) :
  StronglySorted notAfter recs -> StronglySorted GoString.le (liveDays recs).
Proof.
  intros HS. unfold liveDays.
  apply (StronglySorted_map (fun r => dayOf (key r)) GoString.le).
  apply (StronglySorted_filter _ unmarked) in HS.
  induction HS as [|a l _ IH Ha]; constructor; [exact IH|].
  eapply Forall_impl; [exact Ha|]. intros b Hb. now apply substring_le.
Qed.

(** On a sorted set the loop sees the days of the live rows only. *)
Lemma runMax_liveDays (recs : list (list string)) :
  StronglySorted notAfter recs -> Forall wellKeyed recs ->
  forall (date : string) (soFar mx : Z),
    runMax date soFar mx (map key recs)
    = runMaxDays date soFar mx (liveDays recs).
Proof.
  induction 1 as [|r recs HS IH Hr]; intros Hw date soFar mx; [reflexivity|].
  apply Forall_cons in Hw as [Hwr Hw]. cbn [map runMax].
  fold (isMarked r). destruct (isMarked r) eqn:Em.
  - now rewrite liveDays_marked.
  - rewrite liveDays_live by exact Em. cbn [runMaxDays].
    destruct (String.eqb (dayOf (key r)) date); now apply IH.
Qed.

(** What [combineRecordsForSameDay] returns on a sorted set of normalized
    rows: the greatest of 1 and the numbers of readings of the days other
    than the final one. *)
Lemma returnedMax_earlier_days (recs : list (list string)) :
  StronglySorted notAfter recs -> Forall wellKeyed recs ->
  returnedMax (map key recs) = maxOfEarlierDays recs.
Proof.
  intros HS Hw. unfold maxOfEarlierDays.
  destruct recs as [|r recs]; [reflexivity|].
  pose proof (liveDays_sorted _ HS) as HD.
  apply StronglySorted_inv in HS as [HS Hr].
  apply Forall_cons in Hw as [Hwr Hw].
  cbn [map returnedMax]. fold (isMarked r). destruct (isMarked r) eqn:Em.
  - unfold finalDay. now rewrite liveDays_marked.
  - rewrite (runMax_liveDays recs HS Hw).
    unfold finalDay, readingsOn. rewrite liveDays_live in * by exact Em.
    set (date := dayOf (key r)) in *. set (D := liveDays recs) in *.
    destruct (runMaxDays_char D date 1 1 HD) as (Ha & Hb & Hc).
    cbn zeta in Hb, Hc.
    assert (forall x, (if decide (date = x) then 1 else 0) + countDay x D
                      = countDay x (date :: D)) as Hcnt
      by (intros x; now rewrite countDay_cons).
    symmetry. apply foldr_max_char; [exact Ha| |].
    + apply Forall_forall. intros c Hc'.
      apply list_elem_of_In, in_map_iff in Hc' as (x & <- & Hx).
      apply list_elem_of_In, list_elem_of_filter in Hx as [Hne Hx].
      rewrite <- Hcnt. now apply Hb.
    + destruct Hc as [Hc|(x & Hx & Hne & Hc)]; [now left|right].
      rewrite <- Hc, Hcnt. apply list_elem_of_In, in_map_iff.
      exists x. split; [reflexivity|].
      apply list_elem_of_In, list_elem_of_filter. now split.
Qed.

End EarlierDays.

(** C2.  On a sorted set of normalized rows the merge pass returns the
    greatest of 1 and the numbers of readings of the days other than the
    final accumulated day: the running maximum is raised at a change of
    day only and is not looked at again when the loop ends.  So when the
    final day has more than one reading and more readings than every
    other day, the returned integer is less than its number of readings. *)
Theorem C2_returned_max_skips_final_day (recs : list (list string)) :
  StronglySorted notAfter recs -> Forall wellKeyed recs ->
  exists combined m,
    combineRecordsForSameDay recs = Ok (combined, m)
    /\ m = maxOfEarlierDays recs
    /\ forall d,
         finalDay recs = Some d ->
         (1 < readingsOn recs d)%Z ->
         (forall d', d' ∈ liveDays recs -> d' <> d ->
                     (readingsOn recs d' < readingsOn recs d)%Z) ->
         (m < readingsOn recs d)%Z.
Proof.
  intros HS Hw.
  destruct (combineRecordsForSameDay_keys recs Hw)
    as (combined & m & Hrun & _ & _ & Hm).
  exists combined, m. split; [exact Hrun|].
  rewrite (returnedMax_earlier_days recs HS Hw) in Hm.
  split; [exact Hm|]. intros d Hd H1 Hless. subst m.
  unfold maxOfEarlierDays. apply foldr_max_lt; [exact H1|].
  apply Forall_forall. intros c Hc.
  apply list_elem_of_In, in_map_iff in Hc as (x & <- & Hx).
  apply list_elem_of_In, list_elem_of_filter in Hx as [Hne Hx].
  apply Hless; [exact Hx|]. intros ->. now apply Hne.
Qed.

Lemma C2_returned_max_skips_final_day_witness :
  exists combined m,
    combineRecordsForSameDay sampleSorted = Ok (combined, m)
    /\ m = maxOfEarlierDays sampleSorted
    /\ (m < readingsOn sampleSorted "2020-01-02")%Z.
Proof.
  assert (StronglySorted notAfter sampleSorted) as HS
    by (apply (bool_decide_unpack _); vm_compute; exact I).
  assert (Forall wellKeyed sampleSorted) as Hw
    by (repeat constructor; first [now right | now left]).
  destruct (C2_returned_max_skips_final_day sampleSorted HS Hw)
    as (combined & m & Hrun & Hm & Hfinal).
  exists combined, m. split; [exact Hrun|]. split; [exact Hm|].
  apply Hfinal.
  - reflexivity.
  - reflexivity.
  - intros d' Hin Hne. apply list_elem_of_In in Hin. vm_compute in Hin.
    destruct Hin as [<-|[<-|[<-|[]]]]; try congruence; reflexivity.
Defined.

(** C1 (where the code departs from the claim).  For the two readings of
    one day of [sampleSameDay] every run of the conversion writes a header
    of five columns, although the one day holds two readings and the one
    body row has ten fields: the merge returns 1 because it does not look
    at the count of the last day. *)
Theorem C1_header_narrower_than_last_day :
  combineRecordsForSameDay
    (merge_sort notAfter (convertBPDateTimes sampleSameDay))
  = Ok ([ ["2020-01-02 08:00:00"; "118"; "79"; "61"; "morning";
           "2020-01-02 20:00:00"; "120"; "80"; "60"; "evening"];
          ["ZZZZ"; "120"; "80"; "60"; "evening"] ], 1%Z)
  /\ forall out,
       collate sampleSameDay out <->
       out = Ok (mkOutput
                   ["Date Time 1"; "Systolic 1"; "Diastolic 1"; "Pulse 1";
                    "Note 1"]
                   [ ["2020-01-02 08:00:00"; "118"; "79"; "61"; "morning";
                      "2020-01-02 20:00:00"; "120"; "80"; "60"; "evening"] ]).
Proof.
  split; [vm_compute; reflexivity|].
  intros out. split.
  - intros H. rewrite (collate_evaluates sampleSameDay out).
    + vm_compute. reflexivity.
    + apply (bool_decide_unpack _). vm_compute. exact I.
    + exact H.
  - intros ->. pose proof (collate_stable sampleSameDay) as H.
    vm_compute collateStable in H. exact H.
Qed.

(** C4 (where the code departs from the claim).  For the single row of
    [sampleUnparseable], whose timestamp does not parse, every run of the
    conversion has that row, marked, as its one body row: the backward
    scan of the discard pass does not test index 0. *)
Theorem C4_unparseable_row_survives :
  forall out,
    collate sampleUnparseable out <->
    out = Ok (mkOutput
                ["Date Time 1"; "Systolic 1"; "Diastolic 1"; "Pulse 1";
                 "Note 1"]
                [ ["ZZZZ"; "120"; "80"; "60"; "x"] ]).
Proof.
  intros out. split.
  - intros H. rewrite (collate_evaluates sampleUnparseable out).
    + vm_compute. reflexivity.
    + apply (bool_decide_unpack _). vm_compute. exact I.
    + exact H.
  - intros ->. pose proof (collate_stable sampleUnparseable) as H.
    vm_compute collateStable in H. exact H.
Qed.

(** ** The header check *)

Section HeaderCheck.

(** The test of the code accepts the five column names and nothing
    else. *)
Lemma headerRefused_false (headerRecord : list string) :
  headerRefused headerRecord = false <-> headerRecord = canonicalHeader.
Proof.
  split.
  - unfold headerRefused. intros H.
    repeat (apply orb_false_elim in H as [H ?]).
    repeat match goal with
           | E : negb _ = false |- _ => apply negb_false_iff in E
           end.
    destruct headerRecord as [|a [|b [|c [|d [|e [|f l]]]]]];
      try discriminate H. cbn [nth] in *.
    repeat match goal with
           | E : String.eqb _ _ = true |- _ => apply String.eqb_eq in E
           end.
    subst. reflexivity.
  - intros ->. reflexivity.
Qed.

Lemma headerRefused_true (headerRecord : list string) :
  headerRecord <> canonicalHeader -> headerRefused headerRecord = true.
Proof.
  intros H. destruct (headerRefused headerRecord) eqn:E; [reflexivity|].
  now apply headerRefused_false in E.
Qed.

End HeaderCheck.

(** C9.  When the first row of the input is not exactly the five column
    names [Date Time], [Systolic], [Diastolic], [Pulse], [Note] in this
    order, the conversion returns an error and its trace on the output
    file is empty: the file is not opened, created or emptied, and nothing
    is written.  Past the test of the output path the error is the header
    mismatch. *)
Theorem C9_bad_header_no_output (env : Env) (overwrite : bool)
        (reader : Reader) (headerRecord : list string) (run : Run) :
  inputOpens env = Some reader ->
  firstRecord reader = Some headerRecord ->
  headerRecord <> canonicalHeader ->
  ConvertBloodPressureCSVToDaily env overwrite run ->
  (forall inner, checkForHeaderRecord reader env inner ->
                 inner = Returned (Some ErrHeaderMismatch) [])
  /\ exists err,
       run = Returned (Some err) []
       /\ (canWeWriteToFile (outputStat env) overwrite = true ->
           err = ErrHeaderMismatch).
Proof.
  intros Hin Hfirst Hne Hrun.
  assert (forall inner, checkForHeaderRecord reader env inner ->
                        inner = Returned (Some ErrHeaderMismatch) []) as Hcheck.
  { intros inner H. unfold checkForHeaderRecord in H.
    now rewrite Hfirst, (headerRefused_true _ Hne) in H. }
  split; [exact Hcheck|].
  unfold ConvertBloodPressureCSVToDaily in Hrun.
  destruct (canWeWriteToFile (outputStat env) overwrite).
  - rewrite Hin in Hrun. apply Hcheck in Hrun.
    exists ErrHeaderMismatch. now split.
  - exists ErrOutputExists. split; [exact Hrun|discriminate].
Qed.

Lemma C9_bad_header_no_output_witness :
  exists err,
    @Returned (Some ErrHeaderMismatch) [] = Returned (Some err) []
    /\ (canWeWriteToFile StatNotExist false = true -> err = ErrHeaderMismatch).
Proof.
  refine (proj2 (C9_bad_header_no_output
                   (mkEnv StatNotExist (Some sampleShortHeader) true true true)
                   false sampleShortHeader
                   ["Date Time"; "Systolic"; "Diastolic"; "Pulse"]
                   (Returned (Some ErrHeaderMismatch) [])
                   eq_refl eq_refl _ _)).
  - discriminate.
  - reflexivity.
Defined.

(** * Further properties of the code *)

(** ** The merge loop computes [mergeRows] *)

Section MergeRows.

Lemma mergeFrom_pair (target : list string) (date : string)
      (rest : list (list string)) :
  mergeFrom target date rest
  = (fst (mergeFrom target date rest), snd (mergeFrom target date rest)).
Proof. now destruct (mergeFrom target date rest). Qed.

(** The loop from [index] on, when it accumulates into the row [target] at
    [length before] and the rows between that row and [index] are
    [after]. *)
Lemma combineLoop_rows (suf : list (list string)) :
  forall (before : list (list string)) (target : list string)
         (after : list (list string)) (date : string) (soFar mx : Z),
    Forall wellKeyed suf ->
    exists st,
      combineLoop (length suf) (length (before ++ target :: after))
        (mkMergeState ((before ++ target :: after) ++ suf)
                      (length before) date soFar mx) = Ok st
      /\ records st
         = before ++ fst (mergeFrom target date suf)
             :: after ++ snd (mergeFrom target date suf).
Proof.
  induction suf as [|r suf IH]; intros before target after date soFar mx Hsuf.
  - eexists. split; [reflexivity|]. cbn [records mergeFrom fst snd].
    now rewrite <- app_assoc.
  - apply Forall_cons in Hsuf as [Hr Hsuf].
    destruct r as [|first rest]; [destruct Hr|].
    cbn [combineLoop length]. unfold combineBody. cbn [records].
    rewrite list_lookup_middle by reflexivity. cbn [field0 mergeFrom].
    unfold isMarked. cbn [key hd].
    destruct (String.eqb first discardMarker) eqn:Em.
    + eexists. split; [reflexivity|]. cbn [records fst snd].
      now rewrite <- app_assoc.
    + assert (isCanonicalTimestamp first = true) as Hc.
      { destruct Hr as [->|Hc]; [discriminate Em|exact Hc]. }
      rewrite (canonical_slice _ Hc). fold (dayOf first).
      destruct (length (before ++ target :: after) =? 0)%nat eqn:El.
      { apply Nat.eqb_eq in El. rewrite length_app in El. simpl in El. lia. }
      cbn [accumulateDate accumulateIndex readingsAccumulatedSoFar
           maxReadingsInOneDay].
      destruct (String.eqb (dayOf first) date) eqn:Ed.
      * rewrite <- app_assoc. cbn [app].
        rewrite list_lookup_middle by reflexivity.
        rewrite insert_middle.
        replace (before ++ (target ++ first :: rest)
                          :: after ++ (first :: rest) :: suf)
          with ((before ++ (target ++ first :: rest) :: after)
                  ++ (first :: rest) :: suf)
          by (now rewrite <- app_assoc).
        replace (length (before ++ target :: after))
          with (length (before ++ (target ++ first :: rest) :: after))
          by (rewrite !length_app; reflexivity).
        rewrite insert_middle. cbn [tl].
        destruct (IH before (target ++ first :: rest)
                     (after ++ [discardMarker :: rest]) date
                     (soFar + 1)%Z mx Hsuf) as (st & Hrun & Hrec).
        exists st. split.
        -- rewrite <- Hrun. f_equal.
           ++ rewrite !length_app. cbn [length]. rewrite length_app.
              cbn [length]. lia.
           ++ f_equal. rewrite <- !app_assoc. cbn [app].
              now rewrite <- !app_assoc.
        -- rewrite Hrec.
           rewrite (mergeFrom_pair (target ++ first :: rest) date suf).
           cbn [fst snd]. rewrite <- !app_assoc. reflexivity.
      * destruct (IH (before ++ target :: after) (first :: rest) []
                     (dayOf first) 1%Z
                     (if (soFar >? mx)%Z then soFar else mx) Hsuf)
          as (st & Hrun & Hrec).
        exists st. split.
        -- rewrite <- Hrun. f_equal.
           ++ rewrite !length_app. cbn [length]. lia.
           ++ f_equal. rewrite <- !app_assoc. reflexivity.
        -- rewrite Hrec.
           rewrite (mergeFrom_pair (first :: rest) (dayOf first) suf).
           cbn [fst snd app]. rewrite <- !app_assoc. reflexivity.
Qed.

(** On normalized rows the record set the merge leaves is [mergeRows] of
    the one it found. *)
Lemma combineRecordsForSameDay_rows (recs : list (list string)) :
  Forall wellKeyed recs ->
  exists m, combineRecordsForSameDay recs = Ok (mergeRows recs, m).
Proof.
  intros Hw. unfold combineRecordsForSameDay.
  destruct recs as [|r recs]; [eexists; reflexivity|].
  apply Forall_cons in Hw as [Hr Hw].
  destruct r as [|first rest]; [destruct Hr|].
  cbn [combineLoop length]. unfold combineBody. cbn [records lookup].
  cbn [list_lookup field0 mergeRows]. unfold isMarked. cbn [key hd].
  destruct (String.eqb first discardMarker) eqn:Em;
    [eexists; reflexivity|].
  assert (isCanonicalTimestamp first = true) as Hc.
  { destruct Hr as [->|Hc]; [discriminate Em|exact Hc]. }
  rewrite (canonical_slice _ Hc). fold (dayOf first).
  cbn [Nat.eqb accumulateIndex readingsAccumulatedSoFar
       maxReadingsInOneDay].
  destruct (combineLoop_rows recs [] (first :: rest) [] (dayOf first) 1 1 Hw)
    as (st & Hrun & Hrec).
  cbn [length app] in Hrun. rewrite Hrun. cbn [bindR].
  exists (maxReadingsInOneDay st). rewrite Hrec.
  rewrite (mergeFrom_pair (first :: rest) (dayOf first) recs).
  reflexivity.
Qed.

End MergeRows.

Section MergeRowsFacts.

Lemma unmarked_key (a b : list string) :
  key a = key b -> unmarked a -> unmarked b.
Proof. unfold unmarked, isMarked. now intros ->. Qed.

Lemma marked_row_not_unmarked (r : list string) :
  ~ unmarked (discardMarker :: tl r).
Proof. unfold unmarked, isMarked. cbn. discriminate. Qed.

(** The accumulator keeps its first field, no row is lost, and the fields
    of the rows that are not marked stay in their order. *)
Lemma mergeFrom_concat (rest : list (list string)) :
  forall (target : list string) (date : string),
    target <> [] -> Forall (fun r => r <> []) rest ->
    let acc := fst (mergeFrom target date rest) in
    let out := snd (mergeFrom target date rest) in
    key acc = key target
    /\ length out = length rest
    /\ acc ++ concat (filter unmarked out)
       = target ++ concat (filter unmarked rest).
Proof.
  induction rest as [|r rest IH]; intros target date Hne Hrest; cbn zeta.
  - cbn. auto.
  - apply Forall_cons in Hrest as [Hr Hrest].
    cbn [mergeFrom]. destruct (isMarked r) eqn:Em; [cbn; auto|].
    destruct (String.eqb (dayOf (key r)) date).
    + destruct (IH (target ++ r) date) as (Hk & Hl & Hc); [|exact Hrest|].
      { destruct target; [contradiction|discriminate]. }
      rewrite (mergeFrom_pair (target ++ r) date rest). cbn [fst snd].
      split; [now rewrite Hk, key_app|]. split; [cbn; now rewrite Hl|].
      rewrite filter_cons_False by apply marked_row_not_unmarked.
      rewrite Hc, filter_cons_True by exact Em. cbn [concat].
      now rewrite <- app_assoc.
    + destruct (IH r (dayOf (key r)) Hr Hrest) as (Hk & Hl & Hc).
      rewrite (mergeFrom_pair r (dayOf (key r)) rest). cbn [fst snd].
      split; [reflexivity|]. split; [cbn; now rewrite Hl|].
      rewrite filter_cons_True
        by (eapply unmarked_key; [symmetry; exact Hk|exact Em]).
      rewrite filter_cons_True by exact Em. cbn [concat].
      now rewrite Hc.
Qed.

Lemma mergeRows_concat (recs : list (list string)) :
  Forall (fun r => r <> []) recs ->
  length (mergeRows recs) = length recs
  /\ concat (filter unmarked (mergeRows recs)) = concat (filter unmarked recs).
Proof.
  destruct recs as [|r rest]; [now split|]. intros Hn.
  apply Forall_cons in Hn as [Hr Hrest]. cbn [mergeRows].
  destruct (isMarked r) eqn:Em; [now split|].
  destruct (mergeFrom_concat rest r (dayOf (key r)) Hr Hrest)
    as (Hk & Hl & Hc).
  rewrite (mergeFrom_pair r (dayOf (key r)) rest). split.
  - cbn [length]. now rewrite Hl.
  - rewrite filter_cons_True
      by (eapply unmarked_key; [symmetry; exact Hk|exact Em]).
    rewrite filter_cons_True by exact Em. cbn [concat]. exact Hc.
Qed.

(** Every row stays at its index, marked or with fields added behind. *)
Lemma mergeFrom_rowKept (rest : list (list string)) :
  forall (target : list string) (date : string),
    (exists more, fst (mergeFrom target date rest) = target ++ more)
    /\ Forall2 rowKept rest (snd (mergeFrom target date rest)).
Proof.
  induction rest as [|r rest IH]; intros target date.
  - split; [exists []; cbn; now rewrite app_nil_r|constructor].
  - cbn [mergeFrom]. destruct (isMarked r).
    + split; [exists []; cbn; now rewrite app_nil_r|].
      cbn [snd]. apply Forall2_same_length_lookup_2; [reflexivity|].
      intros i x y Hx Hy. right. exists []. rewrite app_nil_r. congruence.
    + destruct (String.eqb (dayOf (key r)) date).
      * destruct (IH (target ++ r) date) as ((more & Hm) & Hout).
        rewrite (mergeFrom_pair (target ++ r) date rest). cbn [fst snd].
        split; [exists (r ++ more); now rewrite Hm, <- app_assoc|].
        constructor; [now left|exact Hout].
      * destruct (IH r (dayOf (key r))) as ((more & Hm) & Hout).
        rewrite (mergeFrom_pair r (dayOf (key r)) rest). cbn [fst snd].
        split; [exists []; now rewrite app_nil_r|].
        constructor; [right; now exists more|exact Hout].
Qed.

Lemma mergeRows_rowKept (recs : list (list string)) :
  Forall2 rowKept recs (mergeRows recs).
Proof.
  destruct recs as [|r rest]; [constructor|]. cbn [mergeRows].
  destruct (isMarked r).
  - apply Forall2_same_length_lookup_2; [reflexivity|].
    intros i x y Hx Hy. right. exists []. rewrite app_nil_r. congruence.
  - destruct (mergeFrom_rowKept rest r (dayOf (key r))) as ((more & Hm) & Hout).
    rewrite (mergeFrom_pair r (dayOf (key r)) rest).
    constructor; [right; now exists more|exact Hout].
Qed.

(** Rows of whole multiples of [n] fields stay so. *)
Lemma widthOf_app (n : nat) (a b : list string) :
  widthOf n a -> widthOf n b -> widthOf n (a ++ b).
Proof.
  intros [Ha (ka & Hka)] [_ (kb & Hkb)]. split.
  - destruct a; [contradiction|discriminate].
  - exists (ka + kb)%nat. rewrite length_app. lia.
Qed.

Lemma widthOf_marked (n : nat) (r : list string) :
  widthOf n r -> widthOf n (discardMarker :: tl r).
Proof.
  intros [Hr (k & Hk)]. split; [discriminate|]. exists k.
  destruct r; [contradiction|exact Hk].
Qed.

Lemma mergeFrom_widthOf (n : nat) (rest : list (list string)) :
  forall (target : list string) (date : string),
    widthOf n target -> Forall (widthOf n) rest ->
    widthOf n (fst (mergeFrom target date rest))
    /\ Forall (widthOf n) (snd (mergeFrom target date rest)).
Proof.
  induction rest as [|r rest IH]; intros target date Ht Hrest.
  - split; [exact Ht|constructor].
  - pose proof Hrest as Hall. apply Forall_cons in Hrest as [Hr Hrest].
    cbn [mergeFrom]. destruct (isMarked r); [now split|].
    destruct (String.eqb (dayOf (key r)) date).
    + destruct (IH (target ++ r) date) as (Ha & Ho);
        [now apply widthOf_app|exact Hrest|].
      rewrite (mergeFrom_pair (target ++ r) date rest). cbn [fst snd].
      split; [exact Ha|]. constructor; [now apply widthOf_marked|exact Ho].
    + destruct (IH r (dayOf (key r)) Hr Hrest) as (Ha & Ho).
      rewrite (mergeFrom_pair r (dayOf (key r)) rest). cbn [fst snd].
      split; [exact Ht|]. now constructor.
Qed.

Lemma mergeRows_widthOf (n : nat) (recs : list (list string)) :
  Forall (widthOf n) recs -> Forall (widthOf n) (mergeRows recs).
Proof.
  destruct recs as [|r rest]; [constructor|]. intros Hall.
  pose proof Hall as Hall'. apply Forall_cons in Hall' as [Hr Hrest].
  cbn [mergeRows]. destruct (isMarked r); [exact Hall|].
  destruct (mergeFrom_widthOf n rest r (dayOf (key r)) Hr Hrest) as (Ha & Ho).
  rewrite (mergeFrom_pair r (dayOf (key r)) rest). now constructor.
Qed.

End MergeRowsFacts.

Section MergeBounds.

Local Open Scope Z_scope.

Lemma runMax_bounds (keys : list string) :
  forall (date : string) (soFar mx : Z),
    1 <= soFar ->
    mx <= runMax date soFar mx keys
    /\ runMax date soFar mx keys
       <= Z.max mx (soFar + Z.of_nat (length keys) - 1).
Proof.
  induction keys as [|k keys IH]; intros date soFar mx Hs; cbn [runMax length].
  - lia.
  - destruct (String.eqb k discardMarker); [lia|].
    destruct (String.eqb (dayOf k) date).
    + destruct (IH date (soFar + 1) mx) as [H1 H2]; lia.
    + destruct (IH (dayOf k) 1 (Z.max mx soFar)) as [H1 H2]; lia.
Qed.

Lemma returnedMax_bounds (keys : list string) :
  1 <= returnedMax keys
  /\ returnedMax keys <= Z.max 1 (Z.of_nat (length keys) - 1).
Proof.
  destruct keys as [|k keys]; cbn [returnedMax length]; [lia|].
  destruct (String.eqb k discardMarker); [lia|].
  destruct (runMax_bounds keys (dayOf k) 1 1); lia.
Qed.

End MergeBounds.

Lemma sampleSorted_wellKeyed : Forall wellKeyed sampleSorted.
Proof. repeat constructor; first [now right | now left]. Qed.

(** X1.  On normalized rows [combineRecordsForSameDay] changes no row
    count and moves no row: the row at every index is afterwards the row
    it was with the discard marker in the place of its first field, or the
    row it was with fields added behind it. *)
Theorem X1_merge_rows_stay_in_place (recs : list (list string)) :
  Forall wellKeyed recs ->
  exists combined m,
    combineRecordsForSameDay recs = Ok (combined, m)
    /\ length combined = length recs
    /\ Forall2 rowKept recs combined.
Proof.
  intros Hw. destruct (combineRecordsForSameDay_rows recs Hw) as (m & Hrun).
  exists (mergeRows recs), m. split; [exact Hrun|].
  pose proof (mergeRows_rowKept recs) as HF. split; [|exact HF].
  symmetry. exact (Forall2_length _ _ _ HF).
Qed.

Lemma X1_merge_rows_stay_in_place_witness :
  exists combined m,
    combineRecordsForSameDay sampleSorted = Ok (combined, m)
    /\ length combined = length sampleSorted
    /\ Forall2 rowKept sampleSorted combined.
Proof.
  exact (X1_merge_rows_stay_in_place sampleSorted sampleSorted_wellKeyed).
Defined.

(** X2.  On normalized rows [combineRecordsForSameDay] loses and repeats
    no field: the fields of the rows that are not marked, read row after
    row, are the same sequence before and after the merge. *)
Theorem X2_merge_keeps_every_field (recs : list (list string)) :
  Forall wellKeyed recs ->
  exists combined m,
    combineRecordsForSameDay recs = Ok (combined, m)
    /\ concat (filter unmarked combined) = concat (filter unmarked recs).
Proof.
  intros Hw. destruct (combineRecordsForSameDay_rows recs Hw) as (m & Hrun).
  exists (mergeRows recs), m. split; [exact Hrun|].
  apply mergeRows_concat.
  eapply Forall_impl; [exact Hw|apply wellKeyed_nonempty].
Qed.

Lemma X2_merge_keeps_every_field_witness :
  exists combined m,
    combineRecordsForSameDay sampleSorted = Ok (combined, m)
    /\ concat (filter unmarked combined)
       = concat (filter unmarked sampleSorted).
Proof.
  exact (X2_merge_keeps_every_field sampleSorted sampleSorted_wellKeyed).
Defined.

(** X3.  The integer [combineRecordsForSameDay] returns on normalized rows
    is at least 1 and at most the greater of 1 and the number of rows less
    one. *)
Theorem X3_merge_count_bounds (recs : list (list string)) :
  Forall wellKeyed recs ->
  exists combined m,
    combineRecordsForSameDay recs = Ok (combined, m)
    /\ (1 <= m)%Z
    /\ (m <= Z.max 1 (Z.of_nat (length recs) - 1))%Z.
Proof.
  intros Hw.
  destruct (combineRecordsForSameDay_keys recs Hw)
    as (combined & m & Hrun & _ & _ & ->).
  exists combined, (returnedMax (map key recs)). split; [exact Hrun|].
  pose proof (returnedMax_bounds (map key recs)) as H.
  now rewrite length_map in H.
Qed.

Lemma X3_merge_count_bounds_witness :
  exists combined m,
    combineRecordsForSameDay sampleSorted = Ok (combined, m)
    /\ (1 <= m)%Z
    /\ (m <= Z.max 1 (Z.of_nat (length sampleSorted) - 1))%Z.
Proof.
  exact (X3_merge_count_bounds sampleSorted sampleSorted_wellKeyed).
Defined.

(** ** The header row in full *)

Section HeaderColumns.

Local Open Scope Z_scope.

Lemma headerLoop_prefix (fuel : nat) :
  forall (i maxReadings : Z) (hdr : list string),
    exists rest, headerLoop fuel i maxReadings hdr = hdr ++ rest.
Proof.
  induction fuel as [|fuel IH]; intros i m hdr; cbn [headerLoop].
  - exists []. now rewrite app_nil_r.
  - destruct (i <? m); [|exists []; now rewrite app_nil_r].
    destruct (IH (i + 1) m (addHeadingSet hdr (i + 1))) as (rest & ->).
    unfold addHeadingSet. rewrite <- app_assoc. eauto.
Qed.

Lemma addHeadingSet_lookup (hdr : list string) (n : Z) (j : nat)
      (name : string) :
  canonicalHeader !! j = Some name ->
  addHeadingSet hdr n !! (length hdr + j)%nat
  = Some (name +:+ " " +:+ Itoa n).
Proof.
  intros Hj. unfold addHeadingSet. rewrite lookup_app_r by lia.
  replace (length hdr + j - length hdr)%nat with j by lia.
  destruct j as [|[|[|[|[|j]]]]]; cbn in Hj; try discriminate;
    injection Hj as <-; reflexivity.
Qed.

Lemma headerLoop_lookup (maxReadings : Z) (fuel : nat) :
  forall (i : Z) (hdr : list string) (k j : nat) (name : string),
    Z.of_nat fuel = maxReadings - i ->
    (k < fuel)%nat ->
    canonicalHeader !! j = Some name ->
    headerLoop fuel i maxReadings hdr !! (length hdr + 5 * k + j)%nat
    = Some (name +:+ " " +:+ Itoa (i + Z.of_nat k + 1)).
Proof.
  induction fuel as [|fuel IH]; intros i hdr k j name Hf Hk Hj; [lia|].
  cbn [headerLoop]. destruct (Z.ltb_spec i maxReadings) as [_|]; [|lia].
  destruct k as [|k].
  - destruct (headerLoop_prefix fuel (i + 1) maxReadings
                (addHeadingSet hdr (i + 1))) as (rest & ->).
    assert (j < 5)%nat as Hj5.
    { apply lookup_lt_Some in Hj. exact Hj. }
    rewrite lookup_app_l by (rewrite addHeadingSet_length; lia).
    replace (length hdr + 5 * 0 + j)%nat with (length hdr + j)%nat by lia.
    rewrite (addHeadingSet_lookup _ _ _ _ Hj).
    now replace (i + Z.of_nat 0 + 1) with (i + 1) by lia.
  - replace (length hdr + 5 * S k + j)%nat
      with (length (addHeadingSet hdr (i + 1)) + 5 * k + j)%nat
      by (rewrite addHeadingSet_length; lia).
    rewrite (IH (i + 1) _ k j name) by (assumption || lia).
    now replace (i + 1 + Z.of_nat k + 1) with (i + Z.of_nat (S k) + 1) by lia.
Qed.

End HeaderColumns.

(** X4.  [buildHeaderRecord] returns five columns for each set from 1 to
    its argument (none when the argument is not positive), and the column
    for name [j] of set [k + 1] is that column name of the input header,
    a space and the decimal number of the set. *)
Theorem X4_header_columns (maxReadings : Z) :
  length (buildHeaderRecord maxReadings) = (5 * Z.to_nat maxReadings)%nat
  /\ forall (k j : nat) (name : string),
       (k < Z.to_nat maxReadings)%nat ->
       canonicalHeader !! j = Some name ->
       buildHeaderRecord maxReadings !! (5 * k + j)%nat
       = Some (name +:+ " " +:+ Itoa (Z.of_nat k + 1)).
Proof.
  unfold buildHeaderRecord. split.
  - destruct (Z.le_gt_cases 0 maxReadings).
    + rewrite headerLoop_length by lia. simpl. lia.
    + replace (Z.to_nat maxReadings) with 0%nat by lia. reflexivity.
  - intros k j name Hk Hj.
    pose proof (headerLoop_lookup maxReadings (Z.to_nat maxReadings)
                  0 [] k j name) as H.
    cbn [length Nat.add Z.add] in H. apply H; [lia|exact Hk|exact Hj].
Qed.

(** X5.  On normalized rows of which one at least is not marked,
    [discardMarkedRecords] leaves exactly the rows that are not marked, in
    ascending order of their first fields. *)
Theorem X5_discard_removes_all_marked (recs : list (list string))
        (out : result (list (list string))) :
  Forall wellKeyed recs ->
  filter unmarked recs <> [] ->
  discardMarkedRecords recs out ->
  exists kept,
    out = Ok kept
    /\ kept ≡ₚ filter unmarked recs
    /\ Forall unmarked kept
    /\ StronglySorted notAfter kept.
Proof.
  intros Hw Hsome (sorted & Hsort & ->).
  apply sortSlice_wellKeyed in Hsort as (s & -> & HP & HS & Hws);
    [|exact Hw].
  assert (filter unmarked s ≡ₚ filter unmarked recs) as HPf
    by now rewrite HP.
  exists (filter unmarked s). cbn [bindR].
  rewrite (trimMarked_sorted _ HS Hws). split; [|split; [exact HPf|split]].
  - destruct (filter unmarked s) as [|x l] eqn:E; [|reflexivity].
    symmetry in HPf. apply Permutation_nil_r in HPf. contradiction.
  - apply Forall_forall. intros r Hr. now apply list_elem_of_filter in Hr.
  - now apply StronglySorted_filter.
Qed.

Lemma X5_discard_removes_all_marked_witness :
  exists kept,
    bindR (Ok (merge_sort notAfter sampleSorted)) trimMarked = Ok kept
    /\ kept ≡ₚ filter unmarked sampleSorted
    /\ Forall unmarked kept
    /\ StronglySorted notAfter kept.
Proof.
  apply (X5_discard_removes_all_marked sampleSorted).
  - exact sampleSorted_wellKeyed.
  - discriminate.
  - exists (Ok (merge_sort notAfter sampleSorted)). split; [|reflexivity].
    apply sortSlice_merge_sort.
    eapply Forall_impl; [exact sampleSorted_wellKeyed|].
    apply wellKeyed_nonempty.
Defined.

(** ** The normalizer and what it marks *)

Section NormalizerMarks.

Lemma lookup_digit_first (c : ascii) (s : string) :
  GoTime.isDigitChar c = true ->
  GoTime.lookup GoTime.shortMonthNames 0 (String c s) = None.
Proof.
  intros Hc.
  destruct c as [[] [] [] [] [] [] [] []]; try discriminate Hc;
    destruct s as [|c1 [|c2 s]]; reflexivity.
Qed.

Lemma Parse_digit_first (c : ascii) (s : string) :
  GoTime.isDigitChar c = true -> GoTime.Parse (String c s) = None.
Proof.
  intros Hc. unfold GoTime.Parse. now rewrite (lookup_digit_first c s Hc).
Qed.

(** Neither the marker nor a normalized timestamp is a timestamp of the
    source layout. *)
Lemma Parse_keyOk (k : string) : keyOk k -> GoTime.Parse k = None.
Proof.
  intros [->|Hc]; [reflexivity|].
  apply canonical_shape in Hc as (_ & c & rest & -> & Hc).
  now apply Parse_digit_first.
Qed.

Lemma convertRecord_marked (r : list string) :
  isMarked (convertRecord r) = true
  <-> r = [] \/ exists first rest,
                  r = first :: rest /\ GoTime.Parse first = None.
Proof.
  destruct r as [|first rest]; cbn [convertRecord].
  - split; [now left|reflexivity].
  - destruct (GoTime.Parse first) as [t|] eqn:E; split.
    + intros H. apply isMarked_true in H. cbn [key hd] in H.
      apply Parse_Format_canonical, canonical_not_marker in E. contradiction.
    + intros [H|(f & r' & [= <- <-] & H)]; congruence.
    + intros _. right. now exists first, rest.
    + reflexivity.
Qed.

End NormalizerMarks.

(** X6.  [convertBPDateTimes] marks exactly the rows without fields and
    the rows whose first field [time.Parse] refuses: the row it leaves at
    an index has the discard marker as first field if and only if the row
    it found there was one of those. *)
Theorem X6_normalizer_marks_unparseable (recs : list (list string)) :
  forall (i : nat) (r : list string),
    recs !! i = Some r ->
    exists r',
      convertBPDateTimes recs !! i = Some r'
      /\ (isMarked r' = true
          <-> r = [] \/ exists first rest,
                          r = first :: rest /\ GoTime.Parse first = None).
Proof.
  intros i r Hi. exists (convertRecord r). split.
  - rewrite convertBPDateTimes_map.
    change (map convertRecord recs) with (convertRecord <$> recs).
    now rewrite list_lookup_fmap, Hi.
  - apply convertRecord_marked.
Qed.

(** X7.  [convertBPDateTimes] is not idempotent: applied to a record set
    it has already normalized, it marks every row, because neither a
    normalized timestamp nor the marker is in the source layout. *)
Theorem X7_normalizer_twice_marks_all (recs : list (list string)) :
  Forall (fun r => isMarked r = true)
         (convertBPDateTimes (convertBPDateTimes recs)).
Proof.
  pose proof (convertBPDateTimes_wellKeyed recs) as Hw.
  rewrite (convertBPDateTimes_map (convertBPDateTimes recs)).
  apply Forall_map. eapply Forall_impl; [exact Hw|].
  intros r Hr. apply convertRecord_marked.
  destruct r as [|first rest]; [now left|right].
  exists first, rest. split; [reflexivity|]. now apply Parse_keyOk.
Qed.

Lemma X6_normalizer_marks_unparseable_witness :
  exists r',
    convertBPDateTimes sampleReadings !! 2%nat = Some r'
    /\ (isMarked r' = true
        <-> ["not a date"; "0"; "0"; "0"; ""] = []
            \/ exists first rest,
                 ["not a date"; "0"; "0"; "0"; ""] = first :: rest
                 /\ GoTime.Parse first = None).
Proof.
  exact (X6_normalizer_marks_unparseable sampleReadings 2%nat
           ["not a date"; "0"; "0"; "0"; ""] eq_refl).
Defined.

(** ** The conversion as a whole, on rows *)

Section PipelineRows.

(** Every run of [sortInput] on the record set, with the merge as
    [mergeRows]. *)
Lemma collate_rows (input : list (list string)) (out : result Output) :
  collate input out ->
  exists sorted resorted,
    convertBPDateTimes input ≡ₚ sorted
    /\ StronglySorted notAfter sorted /\ Forall wellKeyed sorted
    /\ mergeRows sorted ≡ₚ resorted
    /\ out = Ok (mkOutput
                   (buildHeaderRecord (returnedMax (map key sorted)))
                   (match filter unmarked (mergeRows sorted) with
                    | [] => take 1 resorted
                    | kept => kept
                    end)).
Proof.
  intros H. apply collate_inv in H
    as (s & c & m & r & HP & HS & Hw & Hrun & _ & -> & _ & HPr & _ & ->).
  destruct (combineRecordsForSameDay_rows s Hw) as (m' & Hrows).
  rewrite Hrun in Hrows. injection Hrows as -> _.
  exists s, r. auto.
Qed.

Lemma live_rows_survive (recs : list (list string)) :
  Forall (fun r => r <> []) recs ->
  filter unmarked recs <> [] -> filter unmarked (mergeRows recs) <> [].
Proof.
  intros Hn Hlive Hnone.
  destruct (mergeRows_concat recs Hn) as [_ Hc]. rewrite Hnone in Hc.
  destruct (filter unmarked recs) as [|r l] eqn:E; [contradiction|].
  assert (r ∈ filter unmarked recs) as Hr by (rewrite E; left).
  apply list_elem_of_filter in Hr as [_ Hr].
  rewrite Forall_forall in Hn. specialize (Hn r Hr).
  destruct r; [contradiction|discriminate Hc].
Qed.

Lemma convertRecord_length (n : nat) (r : list string) :
  (0 < n)%nat -> length r = n -> widthOf n (convertRecord r).
Proof.
  intros Hn Hr. destruct r as [|first rest]; [cbn in Hr; lia|].
  cbn [convertRecord].
  destruct (GoTime.Parse first); (split; [discriminate|]);
    exists 1%nat; cbn [length] in *; lia.
Qed.

(** The days of the first fields that stay live are the days of the live
    first fields the merge found. *)
Lemma markRepeats_day_elem (keys : list string) :
  forall (date d : string),
    d ∈ map dayOf (filter liveKey (markRepeats date keys)) \/ d = date
    <-> d ∈ map dayOf (filter liveKey keys) \/ d = date.
Proof.
  induction keys as [|k keys IH]; intros date d; [reflexivity|].
  cbn [markRepeats]. destruct (String.eqb k discardMarker) eqn:Em;
    [reflexivity|].
  assert (liveKey k) as Hlive by (now apply String.eqb_neq).
  rewrite (filter_cons_True liveKey k keys) by exact Hlive. cbn [map].
  destruct (String.eqb (dayOf k) date) eqn:Ed.
  - apply String.eqb_eq in Ed.
    rewrite filter_cons_False by (intros H; now apply H).
    rewrite IH, elem_of_cons. subst date. tauto.
  - rewrite filter_cons_True by exact Hlive. cbn [map].
    rewrite !elem_of_cons. specialize (IH (dayOf k) d). tauto.
Qed.

Lemma mergedKeys_day_elem (keys : list string) (d : string) :
  d ∈ map dayOf (filter liveKey (mergedKeys keys))
  <-> d ∈ map dayOf (filter liveKey keys).
Proof.
  destruct keys as [|k keys]; [reflexivity|]. cbn [mergedKeys].
  destruct (String.eqb k discardMarker) eqn:Em; [reflexivity|].
  assert (liveKey k) as Hlive by (now apply String.eqb_neq).
  rewrite !filter_cons_True by exact Hlive. cbn [map].
  rewrite !elem_of_cons. pose proof (markRepeats_day_elem keys (dayOf k) d).
  tauto.
Qed.

Lemma liveDays_keys (recs : list (list string)) :
  liveDays recs = map dayOf (filter liveKey (map key recs)).
Proof.
  unfold liveDays. rewrite <- map_key_filter. now rewrite map_map.
Qed.

Lemma liveDays_perm (l1 l2 : list (list string)) :
  l1 ≡ₚ l2 -> liveDays l1 ≡ₚ liveDays l2.
Proof.
  intros HP. unfold liveDays. apply Permutation_map. now rewrite HP.
Qed.

End PipelineRows.

(** X8.  When the timestamp of one row at least parses, the body the
    conversion writes holds no marked row, and its fields, read row after
    row, are the fields of the rows with a parsed timestamp, read in the
    ascending order of their normalized timestamps: no reading is lost,
    repeated or reordered. *)
Theorem X8_output_keeps_every_reading (input : list (list string))
        (out : result Output) :
  collate input out ->
  exists o sorted,
    out = Ok o
    /\ convertBPDateTimes input ≡ₚ sorted
    /\ StronglySorted notAfter sorted
    /\ (filter unmarked sorted <> [] ->
        Forall unmarked (body o)
        /\ concat (body o) = concat (filter unmarked sorted)).
Proof.
  intros H. apply collate_rows in H
    as (s & r & HP & HS & Hw & HPr & ->).
  eexists _, s. split; [reflexivity|]. split; [exact HP|]. split; [exact HS|].
  intros Hlive. cbn [body].
  assert (Forall (fun r => r <> []) s) as Hn
    by (eapply Forall_impl; [exact Hw|apply wellKeyed_nonempty]).
  pose proof (live_rows_survive s Hn Hlive) as Hsurv.
  destruct (mergeRows_concat s Hn) as [_ Hc].
  destruct (filter unmarked (mergeRows s)) as [|x l] eqn:E; [contradiction|].
  split; [|exact Hc].
  rewrite <- E. apply Forall_forall. intros y Hy.
  now apply list_elem_of_filter in Hy.
Qed.

Lemma X8_output_keeps_every_reading_witness :
  exists o sorted,
    collateStable sampleReadings = Ok o
    /\ convertBPDateTimes sampleReadings ≡ₚ sorted
    /\ StronglySorted notAfter sorted
    /\ (filter unmarked sorted <> [] ->
        Forall unmarked (body o)
        /\ concat (body o) = concat (filter unmarked sorted)).
Proof.
  exact (X8_output_keeps_every_reading sampleReadings
           (collateStable sampleReadings) (collate_stable sampleReadings)).
Defined.

(** X9.  When every input row has the same number [n] of fields, [n] not
    zero, as rows from the reader have, every body row the conversion
    writes has fields, a whole multiple of [n] of them. *)
Theorem X9_body_rows_hold_whole_readings (n : nat)
        (input : list (list string)) (out : result Output) :
  (0 < n)%nat ->
  Forall (fun r => length r = n) input ->
  collate input out ->
  exists o, out = Ok o /\ Forall (widthOf n) (body o).
Proof.
  intros Hn Hin H. apply collate_rows in H
    as (s & r & HP & HS & Hw & HPr & ->).
  eexists. split; [reflexivity|]. cbn [body].
  assert (Forall (widthOf n) (mergeRows s)) as Hm.
  { apply mergeRows_widthOf. rewrite <- HP, convertBPDateTimes_map.
    apply Forall_map. eapply Forall_impl; [exact Hin|].
    intros x Hx. now apply convertRecord_length. }
  destruct (filter unmarked (mergeRows s)) as [|x l] eqn:E.
  - apply Forall_take. now rewrite <- HPr.
  - rewrite <- E. apply Forall_forall. intros y Hy.
    apply list_elem_of_filter in Hy as [_ Hy].
    rewrite Forall_forall in Hm. now apply Hm.
Qed.

Lemma X9_body_rows_hold_whole_readings_witness :
  exists o, collateStable sampleReadings = Ok o
            /\ Forall (widthOf 5) (body o).
Proof.
  apply (X9_body_rows_hold_whole_readings 5 sampleReadings).
  - lia.
  - repeat constructor.
  - apply collate_stable.
Defined.

(** X10.  When the timestamp of one row at least parses, the days of the
    body rows the conversion writes are exactly the days of the rows with
    a parsed timestamp: every day that has a reading has a row. *)
Theorem X10_every_day_has_a_row (input : list (list string))
        (out : result Output) :
  collate input out ->
  exists o,
    out = Ok o
    /\ (liveDays (convertBPDateTimes input) <> [] ->
        forall d,
          d ∈ map (fun r => dayOf (key r)) (body o)
          <-> d ∈ liveDays (convertBPDateTimes input)).
Proof.
  intros H. apply collate_rows in H as (s & r & HP & HS & Hw & HPr & ->).
  eexists. split; [reflexivity|]. cbn [body]. intros Hlive d.
  assert (Forall (fun r => r <> []) s) as Hn
    by (eapply Forall_impl; [exact Hw|apply wellKeyed_nonempty]).
  assert (filter unmarked s <> []) as Hs.
  { intros E. apply Hlive.
    apply Permutation_nil_r. rewrite (liveDays_perm _ _ HP).
    unfold liveDays. now rewrite E. }
  pose proof (live_rows_survive s Hn Hs) as Hsurv.
  destruct (combineRecordsForSameDay_keys s Hw)
    as (c2 & m2 & Hrun2 & Hk2 & _ & _).
  destruct (combineRecordsForSameDay_rows s Hw) as (m3 & Hrun3).
  rewrite Hrun2 in Hrun3. injection Hrun3 as -> _.
  destruct (filter unmarked (mergeRows s)) as [|x l] eqn:E; [contradiction|].
  rewrite <- E. fold (liveDays (mergeRows s)).
  rewrite (liveDays_perm _ _ HP), !liveDays_keys, Hk2.
  apply mergedKeys_day_elem.
Qed.

Lemma X10_every_day_has_a_row_witness :
  exists o,
    collateStable sampleReadings = Ok o
    /\ (liveDays (convertBPDateTimes sampleReadings) <> [] ->
        forall d,
          d ∈ map (fun r => dayOf (key r)) (body o)
          <-> d ∈ liveDays (convertBPDateTimes sampleReadings)).
Proof.
  exact (X10_every_day_has_a_row sampleReadings
           (collateStable sampleReadings) (collate_stable sampleReadings)).
Defined.

(** X11.  The header the conversion writes is [buildHeaderRecord] of an
    integer between 1 and the greater of 1 and the number of input rows
    less one: it is never empty, and its width is five times that
    integer. *)
Theorem X11_header_width_bounds (input : list (list string))
        (out : result Output) :
  collate input out ->
  exists o k,
    out = Ok o
    /\ header o = buildHeaderRecord k
    /\ (1 <= k <= Z.max 1 (Z.of_nat (length input) - 1))%Z
    /\ Z.of_nat (length (header o)) = (5 * k)%Z.
Proof.
  intros H. apply collate_rows in H as (s & r & HP & HS & Hw & HPr & ->).
  eexists _, (returnedMax (map key s)). split; [reflexivity|].
  cbn [header]. split; [reflexivity|].
  pose proof (returnedMax_bounds (map key s)) as [H1 H2].
  rewrite length_map, <- (Permutation_length HP) in H2.
  rewrite convertBPDateTimes_map, length_map in H2.
  split; [lia|]. apply buildHeaderRecord_length. lia.
Qed.

Lemma X11_header_width_bounds_witness :
  exists o k,
    collateStable sampleReadings = Ok o
    /\ header o = buildHeaderRecord k
    /\ (1 <= k <= Z.max 1 (Z.of_nat (length sampleReadings) - 1))%Z
    /\ Z.of_nat (length (header o)) = (5 * k)%Z.
Proof.
  exact (X11_header_width_bounds sampleReadings
           (collateStable sampleReadings) (collate_stable sampleReadings)).
Defined.

(** ** The conversion and the output file *)

Section OutputFile.

Lemma sortInput_returns (reader : Reader) (env : Env) (run : Run) :
  sortInput reader env run ->
  exists err trace,
    run = Returned err trace
    /\ (err = None ->
        exists recs o,
          otherRecords reader = Some recs /\ collate recs (Ok o)
          /\ trace = [EvWriteHeader (header o); EvWriteAll (body o); EvFlush]).
Proof.
  unfold sortInput. destruct (otherRecords reader) as [recs|].
  - intros (out & Hc & Hrun).
    destruct (collate_inv _ _ Hc)
      as (s & c & m & r & _ & _ & _ & _ & _ & _ & _ & _ & _ & Ho).
    rewrite Ho in Hc, Hrun.
    destruct (headerWrites env), (bodyWrites env); subst run;
      eexists _, _; (split; [reflexivity|]); intros [=].
    eexists recs, _. split; [reflexivity|]. split; [exact Hc|reflexivity].
  - intros ->. eexists _, _. split; [reflexivity|]. intros [=].
Qed.

End OutputFile.

(** X12.  Whatever the flag, [ConvertBloodPressureCSVToDaily] leaves the
    output file alone unless the test of the output path passed, the
    input opened, its first record was the five column names and the
    output could be opened; its first event on the file is then the
    opening that creates or empties it. *)
Theorem X12_output_touched_only_after_checks (env : Env) (overwrite : bool)
        (run : Run) :
  ConvertBloodPressureCSVToDaily env overwrite run ->
  runTrace run <> [] ->
  canWeWriteToFile (outputStat env) overwrite = true
  /\ outputOpens env = true
  /\ head (runTrace run) = Some EvOpenTruncate
  /\ exists reader,
       inputOpens env = Some reader
       /\ firstRecord reader = Some canonicalHeader.
Proof.
  unfold ConvertBloodPressureCSVToDaily, checkForHeaderRecord, openOutputFile.
  destruct (canWeWriteToFile (outputStat env) overwrite);
    [|intros -> H; now destruct H].
  destruct (inputOpens env) as [reader|]; [|intros -> H; now destruct H].
  destruct (firstRecord reader) as [h|] eqn:Eh; [|intros -> H; now destruct H].
  destruct (headerRefused h) eqn:Er; [intros -> H; now destruct H|].
  apply headerRefused_false in Er. subst h.
  destruct (outputOpens env); [|intros -> H; now destruct H].
  intros (inner & _ & Hrun) _. split; [reflexivity|]. split; [reflexivity|].
  split; [|now exists reader].
  destruct inner; subst run; reflexivity.
Qed.

Lemma X12_output_touched_only_after_checks_witness :
  canWeWriteToFile StatNotExist false = true
  /\ true = true
  /\ head [EvOpenTruncate; EvClose] = Some EvOpenTruncate
  /\ exists reader,
       Some (mkReader (Some canonicalHeader) None) = Some reader
       /\ firstRecord reader = Some canonicalHeader.
Proof.
  apply (X12_output_touched_only_after_checks
           (mkEnv StatNotExist (Some (mkReader (Some canonicalHeader) None))
                  true true true)
           false (Returned (Some ErrReadBody) [EvOpenTruncate; EvClose])).
  - exists (Returned (Some ErrReadBody) []). split; reflexivity.
  - discriminate.
Defined.

(** X13.  When the header is accepted and the output opens but the rest
    of the input cannot be read, the conversion returns the body error
    with the output file already created or emptied, and closed: the
    output is opened before the body is read. *)
Theorem X13_bad_body_empties_output (env : Env) (overwrite : bool)
        (reader : Reader) (run : Run) :
  canWeWriteToFile (outputStat env) overwrite = true ->
  inputOpens env = Some reader ->
  firstRecord reader = Some canonicalHeader ->
  outputOpens env = true ->
  otherRecords reader = None ->
  ConvertBloodPressureCSVToDaily env overwrite run ->
  run = Returned (Some ErrReadBody) [EvOpenTruncate; EvClose].
Proof.
  intros Hcan Hin Hfirst Hopen Hbody.
  unfold ConvertBloodPressureCSVToDaily, checkForHeaderRecord, openOutputFile,
    sortInput.
  rewrite Hcan, Hin, Hfirst, Hopen, Hbody. cbn.
  now intros (inner & -> & ->).
Qed.

Lemma X13_bad_body_empties_output_witness :
  @Returned (Some ErrReadBody) [EvOpenTruncate; EvClose]
  = Returned (Some ErrReadBody) [EvOpenTruncate; EvClose].
Proof.
  apply (X13_bad_body_empties_output
           (mkEnv StatRegularFile
                  (Some (mkReader (Some canonicalHeader) None))
                  true true true)
           true (mkReader (Some canonicalHeader) None)
           (Returned (Some ErrReadBody) [EvOpenTruncate; EvClose]));
    try reflexivity.
  exists (Returned (Some ErrReadBody) []). split; reflexivity.
Defined.

(** X14.  [ConvertBloodPressureCSVToDaily] never panics, and a run that
    returns no error has opened the output, written the header and the
    body of one outcome of the pipeline on the records read after the
    header, flushed and closed, in this order and nothing else. *)
Theorem X14_success_writes_collated_rows (env : Env) (overwrite : bool)
        (run : Run) :
  ConvertBloodPressureCSVToDaily env overwrite run ->
  exists err trace,
    run = Returned err trace
    /\ (err = None ->
        exists reader recs o,
          inputOpens env = Some reader
          /\ otherRecords reader = Some recs
          /\ collate recs (Ok o)
          /\ trace = [EvOpenTruncate; EvWriteHeader (header o);
                      EvWriteAll (body o); EvFlush; EvClose]).
Proof.
  unfold ConvertBloodPressureCSVToDaily, checkForHeaderRecord, openOutputFile.
  destruct (canWeWriteToFile (outputStat env) overwrite);
    [|intros ->; eexists _, _; split; [reflexivity|discriminate]].
  destruct (inputOpens env) as [reader|];
    [|intros ->; eexists _, _; split; [reflexivity|discriminate]].
  destruct (firstRecord reader) as [h|];
    [|intros ->; eexists _, _; split; [reflexivity|discriminate]].
  destruct (headerRefused h);
    [intros ->; eexists _, _; split; [reflexivity|discriminate]|].
  destruct (outputOpens env);
    [|intros ->; eexists _, _; split; [reflexivity|discriminate]].
  intros (inner & Hinner & Hrun).
  apply sortInput_returns in Hinner as (err & trace & -> & Hok).
  subst run. eexists _, _. split; [reflexivity|]. intros ->.
  destruct (Hok eq_refl) as (recs & o & Hrecs & Hc & ->).
  now exists reader, recs, o.
Qed.

Lemma sampleEnv_run :
  ConvertBloodPressureCSVToDaily sampleEnv false (Returned None sampleTrace).
Proof.
  unfold ConvertBloodPressureCSVToDaily, checkForHeaderRecord, openOutputFile.
  cbn.
  exists (Returned None
            [ EvWriteHeader
                ["Date Time 1"; "Systolic 1"; "Diastolic 1"; "Pulse 1";
                 "Note 1"];
              EvWriteAll
                [ ["2020-01-02 08:00:00"; "118"; "79"; "61"; "morning";
                   "2020-01-02 20:00:00"; "120"; "80"; "60"; "evening"] ];
              EvFlush ]).
  split; [|reflexivity].
  unfold sortInput. cbn [otherRecords sampleReader].
  exists (collateStable sampleSameDay). split; [apply collate_stable|].
  vm_compute. reflexivity.
Qed.

Lemma X14_success_writes_collated_rows_witness :
  exists err trace,
    Returned None sampleTrace = Returned err trace
    /\ (err = None ->
        exists reader recs o,
          inputOpens sampleEnv = Some reader
          /\ otherRecords reader = Some recs
          /\ collate recs (Ok o)
          /\ trace = [EvOpenTruncate; EvWriteHeader (header o);
                      EvWriteAll (body o); EvFlush; EvClose]).
Proof.
  exact (X14_success_writes_collated_rows sampleEnv false
           (Returned None sampleTrace) sampleEnv_run).
Defined.

(** ** The entry points *)

(** X15.  [main] always asks for no overwriting: with an argument count
    other than the program name and two paths, or with an output path at
    which [os.Stat] finds something or fails, it touches no file, keeps an
    error (the usage message, or the refusal of the output path), and
    exits with status 1 unless it runs under the unit tests. *)
Theorem X15_main_refuses_without_touching (args : list string)
        (unitTesting : bool) (env : Env) (res : MainOutcome) :
  main args unitTesting env res ->
  length args <> 3%nat \/ outputStat env <> StatNotExist ->
  mainTrace res = []
  /\ executeError res
     = Some (if (length args =? 3)%nat
             then ConversionError ErrOutputExists else UsageError)
  /\ exitStatus res = (if unitTesting then None else Some 1%Z).
Proof.
  unfold main. destruct (Nat.eqb_spec (length args) 3) as [Hl|Hl].
  - intros (run & Hrun & Hres) [Hne|Hstat]; [contradiction|].
    unfold ConvertBloodPressureCSVToDaily in Hrun.
    destruct (outputStat env); try contradiction;
      cbn in Hrun; subst run; subst res; auto.
  - intros -> _. auto.
Qed.

Lemma X15_main_refuses_without_touching_witness :
  mainTrace (mkMainOutcome (Some (ConversionError ErrOutputExists))
                           (Some 1%Z) []) = []
  /\ executeError (mkMainOutcome (Some (ConversionError ErrOutputExists))
                                 (Some 1%Z) [])
     = Some (if (length ["bpdaily"; "in.csv"; "out.csv"] =? 3)%nat
             then ConversionError ErrOutputExists else UsageError)
  /\ exitStatus (mkMainOutcome (Some (ConversionError ErrOutputExists))
                               (Some 1%Z) [])
     = (if false then None else Some 1%Z).
Proof.
  apply (X15_main_refuses_without_touching
           ["bpdaily"; "in.csv"; "out.csv"] false
           (mkEnv StatRegularFile (Some sampleReader) true true true)).
  - exists (Returned (Some ErrOutputExists) []). split; reflexivity.
  - right. discriminate.
Defined.

(** X16.  The entry function of the single-file [main.go] does not look
    at its overwrite flag: with a regular file at the output path, an
    input that opens with the five column names and an output that opens,
    it creates or empties the output file, where the function of the
    package, asked not to overwrite, returns its error and touches
    nothing. *)
Theorem X16_single_file_entry_overwrites (env : Env) (overwrite : bool)
        (reader : Reader) (run : Run) :
  outputStat env = StatRegularFile ->
  inputOpens env = Some reader ->
  firstRecord reader = Some canonicalHeader ->
  outputOpens env = true ->
  convertBloodPressureCSVToDaily env overwrite run ->
  head (runTrace run) = Some EvOpenTruncate
  /\ forall run',
       ConvertBloodPressureCSVToDaily env false run' ->
       run' = Returned (Some ErrOutputExists) [].
Proof.
  intros Hstat Hin Hfirst Hopen.
  unfold convertBloodPressureCSVToDaily, ConvertBloodPressureCSVToDaily,
    checkForHeaderRecord, openOutputFile.
  rewrite Hstat, Hin, Hfirst, Hopen. cbn.
  intros (inner & _ & Hrun). split; [|now intros run' ->].
  destruct inner; subst run; reflexivity.
Qed.

Lemma X16_single_file_entry_overwrites_witness :
  head (runTrace (Returned None sampleTrace)) = Some EvOpenTruncate
  /\ forall run',
       ConvertBloodPressureCSVToDaily
         (mkEnv StatRegularFile (Some sampleReader) true true true)
         false run' ->
       run' = Returned (Some ErrOutputExists) [].
Proof.
  apply (X16_single_file_entry_overwrites
           (mkEnv StatRegularFile (Some sampleReader) true true true)
           false sampleReader (Returned None sampleTrace));
    try reflexivity.
  pose proof sampleEnv_run as H.
  unfold ConvertBloodPressureCSVToDaily in H. cbn in H.
  unfold convertBloodPressureCSVToDaily. cbn. exact H.
Defined.

(** ** The comparison of the tests *)

Section Comparison.

Lemma compareLines_spec (outputlines expectedlines : list string)
      (fuel : nat) :
  forall i : nat,
    length outputlines = length expectedlines ->
    (i + fuel)%nat = length expectedlines ->
    compareLines fuel i outputlines expectedlines <> Panic
    /\ (compareLines fuel i outputlines expectedlines = Ok None
        <-> drop i outputlines = drop i expectedlines).
Proof.
  induction fuel as [|fuel IH]; intros i Hlen Hi; cbn [compareLines].
  - split; [discriminate|]. rewrite !drop_ge by lia. tauto.
  - destruct (lookup_lt_is_Some_2 outputlines i) as [found Hf]; [lia|].
    destruct (lookup_lt_is_Some_2 expectedlines i) as [expected He]; [lia|].
    rewrite Hf, He, (drop_S _ _ _ Hf), (drop_S _ _ _ He).
    destruct (String.eqb_spec found expected) as [->|Hne]; cbn [negb].
    + destruct (IH (S i) Hlen) as [Hp Hok]; [lia|]. split; [exact Hp|].
      rewrite Hok. split; [now intros ->|now intros [=]].
    + split; [discriminate|]. split; [discriminate|now intros [=]].
Qed.

End Comparison.

(** X17.  The comparison the tests rely on, [outputIsAsExpected] on the
    lines of the two files, returns no error exactly when the two files
    have the same lines; it reads no line out of range, and line counts
    that differ are reported as such. *)
Theorem X17_comparison_is_equality (outputlines expectedlines : list string) :
  (outputIsAsExpected outputlines expectedlines = Ok None
   <-> outputlines = expectedlines)
  /\ outputIsAsExpected outputlines expectedlines <> Panic
  /\ (length outputlines <> length expectedlines ->
      outputIsAsExpected outputlines expectedlines
      = Ok (Some (LineCountDiffers (length outputlines)
                                   (length expectedlines)))).
Proof.
  unfold outputIsAsExpected.
  destruct (Nat.eqb_spec (length outputlines) (length expectedlines))
    as [Hlen|Hlen]; cbn [negb].
  - destruct (compareLines_spec outputlines expectedlines
                (length expectedlines) 0 Hlen eq_refl) as [Hp Hok].
    split; [exact Hok|]. split; [exact Hp|]. contradiction.
  - split; [|split; [discriminate|reflexivity]].
    split; [discriminate|]. intros ->. contradiction.
Qed.
